(** * The crime-data dashboard of [src/App.jsx]: the aggregation pass
      ([chartData]) and the table projection, embedded in Rocq.

    The JavaScript of the component is translated function by function:

    - JSON field values are the scalars of the language ([val]); a record
      is the list of its own properties in enumeration order;
    - a [Map] is an association list kept in insertion order, which is
      what [Map.prototype.entries] enumerates;
    - the [for ... of] loop is a left fold of its body ([step]);
    - [Array.prototype.sort] is a stable sort (ECMAScript 2019), written
      here as a stable insertion sort, [slice] is [firstn]/[skipn];
    - the operations of the language that may throw ([x.length] on
      [undefined]/[null], a call of a missing method) return in [Exc];
    - what the host decides ([Date.parse], the local time zone, the
      collation of [localeCompare]) is a [Host] record. *)

From Stdlib Require Import List ZArith Bool Lia String Ascii.
From Stdlib Require Import Permutation Sorted.
From Stdlib Require Import SpecFloat Decimal DecimalString DecimalPos DecimalZ.
Import ListNotations.

Set Warnings "-notation-for-abbreviation".

Local Open Scope string_scope.
Local Open Scope list_scope.
Local Open Scope Z_scope.

(* ================================================================== *)
(** * Part I: definitions *)
(* ================================================================== *)

(** ** Values of the language *)

(** The scalar values a JSON field can hold, plus [undefined] for a
    property that is absent.  A number is an IEEE-754 double, carried in
    its canonical [spec_float] form. *)
Inductive val : Type :=
| VUndefined
| VNull
| VBool (b : bool)
| VNum (x : spec_float)
| VStr (s : string).

(** [ToBoolean]: the falsy values are [undefined], [null], [false], [+0],
    [-0], [NaN] and the empty string. *)
Definition ToBoolean (v : val) : bool :=
  match v with
  | VUndefined | VNull => false
  | VBool b => b
  | VNum (S754_zero _) | VNum S754_nan => false
  | VNum _ => true
  | VStr s => negb (String.eqb s "")
  end.

(** [a || b] *)
Definition or_else (a b : val) : val := if ToBoolean a then a else b.

Definition spec_float_eq_dec (x y : spec_float) : {x = y} + {x <> y}.
Proof.
  decide equality; try apply Bool.bool_dec; try apply Z.eq_dec;
    apply Pos.eq_dec.
Defined.

Definition val_eq_dec (a b : val) : {a = b} + {a <> b}.
Proof.
  decide equality; try apply Bool.bool_dec; try apply string_dec;
    apply spec_float_eq_dec.
Defined.

(** A [Map] compares keys with SameValueZero: [set] stores [-0] as [+0],
    every other value as itself; on canonical keys SameValueZero is
    identity of values. *)
Definition canon_val (v : val) : val :=
  match v with
  | VNum (S754_zero _) => VNum (S754_zero false)
  | _ => v
  end.

(** ** Exceptions *)

Inductive JSError : Type := TypeError.

Inductive Exc (A : Type) : Type :=
| Ok (a : A)
| Throw (e : JSError).
Arguments Ok {A} a.
Arguments Throw {A} e.

Definition bind {A B : Type} (c : Exc A) (k : A -> Exc B) : Exc B :=
  match c with
  | Ok a => k a
  | Throw e => Throw e
  end.

Notation "x <- c ;; k" := (bind c (fun x => k))
  (at level 61, c at next level, right associativity).

Fixpoint mapM {A B : Type} (f : A -> Exc B) (l : list A) : Exc (list B) :=
  match l with
  | [] => Ok []
  | x :: l' => y <- f x ;; ys <- mapM f l' ;; Ok (y :: ys)
  end.

(** ** Strings *)

(** A character of a Rocq string stands for one code unit of the
    JavaScript string. *)
Definition js_length (s : string) : Z := Z.of_nat (String.length s).

(** [s.substring(a, b)] for natural-number arguments: both are clamped to
    the length and swapped when out of order. *)
Definition js_substring (s : string) (a b : nat) : string :=
  let n := String.length s in
  let a' := Nat.min a n in
  let b' := Nat.min b n in
  String.substring (Nat.min a' b') (Nat.max a' b' - Nat.min a' b') s.

Fixpoint repeat_char (c : ascii) (n : nat) : string :=
  match n with
  | O => ""
  | S n' => String c (repeat_char c n')
  end.

(** [s.padStart(n, c)] for a one-character filler. *)
Definition padStart (s : string) (n : nat) (c : ascii) : string :=
  String.append (repeat_char c (n - String.length s)) s.

(** [String(z)] and the template-literal conversion of an integral
    number: decimal digits, with a leading [-] below zero. *)
Definition Number_toString (z : Z) : string :=
  NilZero.string_of_int (Z.to_int z).

(** [v.length]: a [TypeError] on [undefined] and [null], the number of
    code units of a string, [undefined] (here [None]) on a boolean or a
    number. *)
Definition get_length (v : val) : Exc (option Z) :=
  match v with
  | VUndefined | VNull => Throw TypeError
  | VStr s => Ok (Some (js_length s))
  | VBool _ | VNum _ => Ok None
  end.

(** [x > n] where [x] is a number or [undefined]: [undefined > n] is
    [false]. *)
Definition gt_num (x : option Z) (n : Z) : bool :=
  match x with
  | Some z => n <? z
  | None => false
  end.

(** [v.substring(a, b)]: only a string has the method; calling it on
    another value is a [TypeError]. *)
Definition call_substring (v : val) (a b : nat) : Exc string :=
  match v with
  | VStr s => Ok (js_substring s a b)
  | _ => Throw TypeError
  end.

(** ** Objects and Maps *)

(** A record of the data set: its own properties, in enumeration order. *)
Definition record : Type := list (string * val).

(** [record[k]] and [record.k]: the property's value, [undefined] when
    the record has no such property.  Field and column names are names of
    the data set, none of them a member of [Object.prototype]. *)
Fixpoint get_prop (r : record) (k : string) : val :=
  match r with
  | [] => VUndefined
  | (k', v) :: r' => if String.eqb k k' then v else get_prop r' k
  end.

Definition Object_keys (r : record) : list string := map fst r.

Section JSMap.
Context {K : Type}.
Variable K_eq_dec : forall a b : K, {a = b} + {a <> b}.
Variable canon : K -> K.

(** The entries in insertion order. *)
Definition JMap : Type := list (K * Z).

Fixpoint assoc_get (k : K) (m : JMap) : option Z :=
  match m with
  | [] => None
  | (k', v) :: m' => if K_eq_dec k k' then Some v else assoc_get k m'
  end.

(** An existing key keeps its place, a new one goes to the end. *)
Fixpoint assoc_set (k : K) (v : Z) (m : JMap) : JMap :=
  match m with
  | [] => [(k, v)]
  | (k', v') :: m' =>
      if K_eq_dec k k' then (k', v) :: m' else (k', v') :: assoc_set k v m'
  end.

Definition Map_get (m : JMap) (k : K) : option Z := assoc_get (canon k) m.
Definition Map_set (m : JMap) (k : K) (v : Z) : JMap :=
  assoc_set (canon k) v m.
Definition Map_entries (m : JMap) : list (K * Z) := m.
End JSMap.
Arguments JMap K : clear implicits.

(** [m.get(k) || 0] on a Map of numbers. *)
Definition or0 (x : option Z) : Z :=
  match x with
  | Some v => if v =? 0 then 0 else v
  | None => 0
  end.

(** ** Arrays *)

Section Sort.
Context {A : Type}.
Variable cmp : A -> A -> Z.

(** [x] goes in front of the first element it does not follow. *)
Fixpoint insert (x : A) (l : list A) : list A :=
  match l with
  | [] => [x]
  | y :: l' => if cmp x y <=? 0 then x :: l else y :: insert x l'
  end.

(** [l.sort(cmp)]: the stable sort of [l]. *)
Definition sort (l : list A) : list A := fold_right insert [] l.
End Sort.

(** [l.slice(a, b)] for natural-number bounds. *)
Definition slice {A : Type} (a b : nat) (l : list A) : list A :=
  firstn (b - a) (skipn a l).

(** ** Dates *)

(** The host's part of the language: how [Date.parse] reads a string
    (the time value in milliseconds since the epoch, [None] for [NaN]),
    the offset of local time at a given instant, and the collation of
    [localeCompare] (negative, zero or positive). *)
Record Host : Type := {
  Date_parse : string -> option Z;
  LocalTZA : Z -> Z;
  localeCompare : string -> string -> Z
}.

(** The date arithmetic of ECMA-262 (section "Time Values and Time
    Range"). *)
Module DateModel.

Definition msPerDay : Z := 86400000.

Definition Day (t : Z) : Z := t / msPerDay.

Definition DaysInYear (y : Z) : Z :=
  if negb (y mod 4 =? 0) then 365
  else if negb (y mod 100 =? 0) then 366
  else if negb (y mod 400 =? 0) then 365
  else 366.

Definition DayFromYear (y : Z) : Z :=
  365 * (y - 1970) + (y - 1969) / 4 - (y - 1901) / 100 + (y - 1601) / 400.

Definition TimeFromYear (y : Z) : Z := msPerDay * DayFromYear y.

(** The largest [y] with [TimeFromYear y <= t], found from an estimate
    that is off by at most one year (see [YearFromTime_spec]). *)
Definition YearFromTime (t : Z) : Z :=
  let d := Day t in
  let y := 1970 + (400 * d) / 146097 in
  if DayFromYear (y + 1) <=? d then y + 1
  else if DayFromYear y <=? d then y
  else y - 1.

Definition InLeapYear (t : Z) : Z :=
  if DaysInYear (YearFromTime t) =? 366 then 1 else 0.

Definition DayWithinYear (t : Z) : Z :=
  Day t - DayFromYear (YearFromTime t).

Definition MonthFromTime (t : Z) : Z :=
  let d := DayWithinYear t in
  let leap := InLeapYear t in
  if d <? 31 then 0
  else if d <? 59 + leap then 1
  else if d <? 90 + leap then 2
  else if d <? 120 + leap then 3
  else if d <? 151 + leap then 4
  else if d <? 181 + leap then 5
  else if d <? 212 + leap then 6
  else if d <? 243 + leap then 7
  else if d <? 273 + leap then 8
  else if d <? 304 + leap then 9
  else if d <? 334 + leap then 10
  else 11.

(** [TimeClip] on an integral time value. *)
Definition TimeClip (t : Z) : option Z :=
  if 8640000000000000 <? Z.abs t then None else Some t.

(** [TimeClip] on a double [(-1)^s * m * 2^e]: [NaN] when it is not
    finite or beyond the range, its integer part otherwise. *)
Definition TimeClip_float (x : spec_float) : option Z :=
  match x with
  | S754_zero _ => Some 0
  | S754_infinity _ | S754_nan => None
  | S754_finite s m e =>
      let beyond :=
        if 0 <=? e then 8640000000000000 <? Zpos m * 2 ^ e
        else 8640000000000000 * 2 ^ (- e) <? Zpos m in
      let mag := if 0 <=? e then Zpos m * 2 ^ e else Zpos m / 2 ^ (- e) in
      if beyond then None else Some (if s then - mag else mag)
  end.

End DateModel.

Section Dates.
Variable h : Host.

(** [new Date(v).getTime()]: a string is parsed, anything else is
    converted to a number; [None] is [NaN], the invalid date. *)
Definition new_Date (v : val) : option Z :=
  match v with
  | VStr s =>
      match Date_parse h s with
      | Some t => DateModel.TimeClip t
      | None => None
      end
  | VUndefined => None
  | VNull => Some 0
  | VBool b => Some (if b then 1 else 0)
  | VNum x => DateModel.TimeClip_float x
  end.

Definition LocalTime (t : Z) : Z := t + LocalTZA h t.

(** [date.getFullYear()] and [date.getMonth()] of a valid date. *)
Definition getFullYear (t : Z) : Z := DateModel.YearFromTime (LocalTime t).
Definition getMonth (t : Z) : Z := DateModel.MonthFromTime (LocalTime t).
End Dates.

(** ** The component *)

(** The objects of the chart arrays: [{ name, fullName, value }] for the
    crime types, [{ name, value }] (no [fullName] property) for the areas
    and the months. *)
Record Entry (L : Type) : Type := {
  name : L;
  fullName : option L;
  value : Z
}.
Arguments name {L} e.
Arguments fullName {L} e.
Arguments value {L} e.

Record ChartData : Type := {
  crimesByType : list (Entry val);
  crimesByArea : list (Entry val);
  crimesOverTime : list (Entry string);
  totalCount : Z
}.

(** The variables of the loop. *)
Record LoopState : Type := {
  typeCount : JMap val;
  areaCount : JMap val;
  timeCount : JMap string;
  processed : Z
}.

Definition Map_get_val := Map_get val_eq_dec canon_val.
Definition Map_set_val := Map_set val_eq_dec canon_val.
Definition Map_get_str := Map_get string_dec (fun s : string => s).
Definition Map_set_str := Map_set string_dec (fun s : string => s).

Section App.
Variable h : Host.

(** [record.crm_cd_desc || 'Unknown'] *)
Definition type_of (r : record) : val :=
  or_else (get_prop r "crm_cd_desc") (VStr "Unknown").

(** [record.area_name || record.area || 'Unknown'] *)
Definition area_of (r : record) : val :=
  or_else (or_else (get_prop r "area_name") (get_prop r "area"))
          (VStr "Unknown").

(** The template literal
    [`${date.getFullYear()}-${String(date.getMonth() + 1).padStart(2, '0')}`]. *)
Definition monthKey_of (year month : Z) : string :=
  String.append (Number_toString year)
    (String.append "-" (padStart (Number_toString (month + 1)) 2 "0")).

(** The key under which the record is counted in [timeCount], if any:
    [record.date_rptd] must be truthy and give a valid date. *)
Definition monthKey (r : record) : option string :=
  if ToBoolean (get_prop r "date_rptd") then
    match new_Date h (get_prop r "date_rptd") with
    | Some t => Some (monthKey_of (getFullYear h t) (getMonth h t))
    | None => None
    end
  else None.

(** The body of the [for (const record of data)] loop. *)
Definition step (st : LoopState) (r : record) : LoopState :=
  let type := type_of r in
  let typeCount' :=
    Map_set_val (typeCount st) type
      (or0 (Map_get_val (typeCount st) type) + 1) in
  let area := area_of r in
  let areaCount' :=
    Map_set_val (areaCount st) area
      (or0 (Map_get_val (areaCount st) area) + 1) in
  let timeCount' :=
    match monthKey r with
    | Some k =>
        Map_set_str (timeCount st) k (or0 (Map_get_str (timeCount st) k) + 1)
    | None => timeCount st
    end in
  {| typeCount := typeCount';
     areaCount := areaCount';
     timeCount := timeCount';
     processed := processed st + 1 |}.

Definition init : LoopState :=
  {| typeCount := []; areaCount := []; timeCount := []; processed := 0 |}.

Definition loop (data : list record) : LoopState := fold_left step data init.

(** [([name, value]) => ({ name: name.length > 40 ?
    name.substring(0, 37) + '...' : name, fullName: name, value })] *)
Definition type_entry (kv : val * Z) : Exc (Entry val) :=
  let '(name, value) := kv in
  len <- get_length name ;;
  shown <- (if gt_num len 40
            then s <- call_substring name 0 37 ;;
                 Ok (VStr (String.append s "..."))
            else Ok name) ;;
  Ok {| name := shown; fullName := Some name; value := value |}.

(** [([name, value]) => ({ name, value })] *)
Definition name_value_entry {L : Type} (kv : L * Z) : Entry L :=
  let '(name, value) := kv in
  {| name := name; fullName := None; value := value |}.

(** [(a, b) => b.value - a.value] *)
Definition by_value_desc {L : Type} (a b : Entry L) : Z := value b - value a.

(** [(a, b) => a.name.localeCompare(b.name)] *)
Definition by_name (a b : Entry string) : Z :=
  localeCompare h (name a) (name b).

(** The function of the [useMemo] that computes [chartData]. *)
Definition chartData (data : list record) : Exc ChartData :=
  if (List.length data =? 0)%nat then
    Ok {| crimesByType := []; crimesByArea := []; crimesOverTime := [];
          totalCount := 0 |}
  else
    let st := loop data in
    mapped <- mapM type_entry (Map_entries (typeCount st)) ;;
    let crimesByType := slice 0 15 (sort by_value_desc mapped) in
    let crimesByArea :=
      slice 0 15
        (sort by_value_desc
           (map name_value_entry (Map_entries (areaCount st)))) in
    let crimesOverTime :=
      sort by_name (map name_value_entry (Map_entries (timeCount st))) in
    Ok {| crimesByType := crimesByType;
          crimesByArea := crimesByArea;
          crimesOverTime := crimesOverTime;
          totalCount := processed st |}.

(** [const columns = data.length > 0 ? Object.keys(data[0]) : []] *)
Definition columns (data : list record) : list string :=
  match data with
  | r :: _ => Object_keys r
  | [] => []
  end.

(** [data.slice(0, 1000)] *)
Definition tableData (data : list record) : list record := slice 0 1000 data.

(** The content of a cell, [record[column] || 'N/A']. *)
Definition cell (r : record) (column : string) : val :=
  or_else (get_prop r column) (VStr "N/A").

(** The body of the table: one row per record of [tableData], one cell
    per column. *)
Definition table_rows (data : list record) : list (list val) :=
  map (fun r => map (fun column => cell r column) (columns data))
      (tableData data).
End App.

(** A host for running the definitions: UTC as the local time zone,
    comparison of code units as the collation, and a [Date.parse] that
    reads the date-only form [YYYY-MM-DD] (as UTC midnight) and nothing
    else. *)
Module UTCHost.

Definition digit (c : ascii) : option Z :=
  let n := Z.of_N (N_of_ascii c) in
  if (48 <=? n) && (n <=? 57) then Some (n - 48) else None.

Fixpoint digits (acc : Z) (cs : list ascii) : option Z :=
  match cs with
  | [] => Some acc
  | c :: cs' =>
      match digit c with
      | Some d => digits (10 * acc + d) cs'
      | None => None
      end
  end.

(** Days before the first of month [m] (0-based) in a year. *)
Definition days_before (leap m : Z) : Z :=
  nth (Z.to_nat m) [0; 31; 59 + leap; 90 + leap; 120 + leap; 151 + leap;
                    181 + leap; 212 + leap; 243 + leap; 273 + leap;
                    304 + leap; 334 + leap] 0.

Definition days_in_month (leap m : Z) : Z :=
  nth (Z.to_nat m) [31; 28 + leap; 31; 30; 31; 30; 31; 31; 30; 31; 30; 31] 0.

Definition parse (s : string) : option Z :=
  match list_ascii_of_string s with
  | [y1; y2; y3; y4; d1; m1; m2; d2; a1; a2] =>
      if Ascii.eqb d1 "-" && Ascii.eqb d2 "-" then
        match digits 0 [y1; y2; y3; y4], digits 0 [m1; m2], digits 0 [a1; a2] with
        | Some y, Some m, Some a =>
            let leap := if DateModel.DaysInYear y =? 366 then 1 else 0 in
            if (1 <=? m) && (m <=? 12) && (1 <=? a)
               && (a <=? days_in_month leap (m - 1))
            then Some (DateModel.msPerDay *
                       (DateModel.DayFromYear y + days_before leap (m - 1)
                        + (a - 1)))
            else None
        | _, _, _ => None
        end
      else None
  | _ => None
  end.

Definition compare_code_units (a b : string) : Z :=
  match String.compare a b with
  | Lt => -1
  | Eq => 0
  | Gt => 1
  end.

Definition host : Host :=
  {| Date_parse := parse;
     LocalTZA := fun _ => 0;
     localeCompare := compare_code_units |}.

(** The same host eight hours west of UTC. *)
Definition west : Host :=
  {| Date_parse := parse;
     LocalTZA := fun _ => - (8 * 3600000);
     localeCompare := compare_code_units |}.

End UTCHost.


(** ** Vocabulary of the statements *)

(** The count a Map holds for a key, [0] for a key it does not have. *)
Definition count_of (x : option Z) : Z :=
  match x with
  | Some v => v
  | None => 0
  end.

(** The number of elements of [l] equal to [k]. *)
Definition occurrences (k : val) (l : list val) : Z :=
  Z.of_nat (count_occ val_eq_dec l k).

Section Order.
Context {K : Type}.
Variable K_eq_dec : forall a b : K, {a = b} + {a <> b}.

(** The position of the first occurrence of [k] in [l]. *)
Fixpoint first_index (k : K) (l : list K) : option nat :=
  match l with
  | [] => None
  | x :: l' =>
      if K_eq_dec k x then Some O else option_map S (first_index k l')
  end.

(** One pass of counting: the Map after the labels [l] were counted one
    by one, starting from [m]. *)
Definition tally_step (m : JMap K) (k : K) : JMap K :=
  assoc_set K_eq_dec k (or0 (assoc_get K_eq_dec k m) + 1) m.

Definition tally_from (m : JMap K) (l : list K) : JMap K :=
  fold_left tally_step l m.
End Order.

(** [before x y l]: an occurrence of [x] in [l] has an occurrence of [y]
    somewhere after it. *)
Inductive before {A : Type} (x y : A) : list A -> Prop :=
| before_here : forall l, In y l -> before x y (x :: l)
| before_later : forall z l, before x y l -> before x y (z :: l).

(** What [type_entry] shows for a label that has a [length]. *)
Definition shown (label : val) : val :=
  match label with
  | VStr s =>
      if 40 <? js_length s
      then VStr (String.append (js_substring s 0 37) "...")
      else label
  | _ => label
  end.

Definition shown_entry (kv : val * Z) : Entry val :=
  {| name := shown (fst kv); fullName := Some (fst kv); value := snd kv |}.

(** The year and the month (0-based, as [getMonth] returns it) under
    which a record is counted, if it is. *)
Definition year_month (h : Host) (r : record) : option (Z * Z) :=
  if ToBoolean (get_prop r "date_rptd") then
    match new_Date h (get_prop r "date_rptd") with
    | Some t => Some (getFullYear h t, getMonth h t)
    | None => None
    end
  else None.

(** The keys counted in [timeCount], in the order of the records. *)
Definition observed_keys (h : Host) (data : list record) : list string :=
  flat_map (fun r => match monthKey h r with
                     | Some k => [k]
                     | None => []
                     end) data.

(** The two ranked views before they are cut to fifteen entries. *)
Definition all_types (h : Host) (data : list record) : list (Entry val) :=
  sort by_value_desc (map shown_entry (typeCount (loop h data))).
Definition all_areas (h : Host) (data : list record) : list (Entry val) :=
  sort by_value_desc (map name_value_entry (areaCount (loop h data))).

(** A month between 1 and 12 written with two decimal digits. *)
Definition two_digits (m : Z) : string :=
  String (ascii_of_N (Z.to_N (48 + m / 10)))
    (String (ascii_of_N (Z.to_N (48 + m mod 10))) "").

(** The characters a month key is made of: the decimal digits and the
    hyphen. *)
Definition is_key_char (c : ascii) : bool :=
  let n := N_of_ascii c in
  ((48 <=? n) && (n <=? 57) || (n =? 45))%N.

Fixpoint string_forall (p : ascii -> bool) (s : string) : bool :=
  match s with
  | EmptyString => true
  | String c s' => p c && string_forall p s'
  end.

(** The host's collation orders strings of digits and hyphens as their
    code units do. *)
Definition collates_keys_by_code_unit (h : Host) : Prop :=
  forall a b : string,
    string_forall is_key_char a = true ->
    string_forall is_key_char b = true ->
    (localeCompare h a b ?= 0) = String.compare a b.

(** The host's [Date.parse] gives [NaN] for the empty string. *)
Definition parse_rejects_empty (h : Host) : Prop := Date_parse h "" = None.

(** Non-increasing counts, and strictly increasing names. *)
Definition value_ge {L : Type} (a b : Entry L) : Prop := value b <= value a.
Definition name_lt (a b : Entry string) : Prop :=
  String.compare (name a) (name b) = Lt.

(** Sample records. *)
Module Samples.
Definition theft : record :=
  [("crm_cd_desc", VStr "THEFT"); ("area_name", VStr "HOLLYWOOD");
   ("date_rptd", VStr "2021-03-15")].
Definition burglary : record :=
  [("crm_cd_desc", VStr "BURGLARY"); ("area_name", VStr "CENTRAL");
   ("date_rptd", VStr "2020-11-02")].
Definition bare : record := [("date_rptd", VStr "not a date")].
Definition empty_area_name : record :=
  [("crm_cd_desc", VStr "THEFT"); ("area_name", VStr "");
   ("area", VStr "CENTRAL")].
Definition long_label : string :=
  "BURGLARY FROM VEHICLE, ATTEMPTED - NIGHT TIME".
Definition long_names : record :=
  [("crm_cd_desc", VStr long_label); ("area_name", VStr long_label)].
Definition numbered (n : Z) : record :=
  [("crm_cd_desc", VStr (Number_toString n)); ("area", VStr (Number_toString n))].
Definition sixteen_labels : list record :=
  map numbered [1; 2; 3; 4; 5; 6; 7; 8; 9; 10; 11; 12; 13; 14; 15; 16; 16].
Definition falsy_fields : record :=
  [("dr_no", VStr ""); ("vict_age", VNum (S754_zero false));
   ("arrested", VBool false)].
End Samples.

(** ** The rest of the component *)

(** *** The table header and the pie chart *)

(** [column.replace(/_/g, ' ')] *)
Fixpoint replace_underscores (s : string) : string :=
  match s with
  | EmptyString => EmptyString
  | String c s' =>
      String (if Ascii.eqb c "_" then " "%char else c) (replace_underscores s')
  end.

(** The cells of the header row, one per column. *)
Definition table_header (data : list record) : list string :=
  map replace_underscores (columns data).


(** The colours of the pie chart. *)
Definition COLORS : list string :=
  ["#60a5fa"; "#34d399"; "#fbbf24"; "#fb7185"; "#a78bfa"; "#2dd4bf";
   "#f59e0b"; "#ef4444"; "#8b5cf6"; "#06b6d4"].

(** [COLORS[index % COLORS.length]]; [None] is [undefined]. *)
Definition pie_fill (index : nat) : option string :=
  nth_error COLORS (index mod List.length COLORS).

(** The name in the label of a pie slice,
    [name.length > 15 ? name.substring(0, 12) + '...' : name]. *)
Definition pie_name (name : val) : Exc val :=
  len <- get_length name ;;
  if gt_num len 15
  then s <- call_substring name 0 12 ;; Ok (VStr (String.append s "..."))
  else Ok name.

(** *** State, effect and rendering *)

Module Component.

Inductive ViewMode : Type := graphs | table.

(** The five [useState] cells.  [error] is [null] or the [message] of
    what was caught, a string or [undefined]. *)
Record State : Type := {
  data : list record;
  loading : bool;
  error : val;
  progress : string;
  viewMode : ViewMode
}.

Definition initial : State :=
  {| data := []; loading := true; error := VNull; progress := "";
     viewMode := graphs |}.

(** A call of one of the setters. *)
Inductive Update : Type :=
| setData (d : list record)
| setLoading (b : bool)
| setError (e : val)
| setProgress (p : string)
| setViewMode (m : ViewMode).

Definition update (s : State) (u : Update) : State :=
  match u with
  | setData d =>
      {| data := d; loading := loading s; error := error s;
         progress := progress s; viewMode := viewMode s |}
  | setLoading b =>
      {| data := data s; loading := b; error := error s;
         progress := progress s; viewMode := viewMode s |}
  | setError e =>
      {| data := data s; loading := loading s; error := e;
         progress := progress s; viewMode := viewMode s |}
  | setProgress p =>
      {| data := data s; loading := loading s; error := error s;
         progress := p; viewMode := viewMode s |}
  | setViewMode m =>
      {| data := data s; loading := loading s; error := error s;
         progress := progress s; viewMode := m |}
  end.

Definition run (s : State) (us : list Update) : State := fold_left update us s.

(** What the network does to the one request: [fetch] rejects, the
    response is not [ok], [response.json()] rejects, or it resolves to an
    array of records. *)
Inductive Outcome : Type :=
| fetch_rejects (message : val)
| response_not_ok (status : Z) (statusText : string)
| json_rejects (message : val)
| json_resolves (sampleData : list record).

(** What the page shows. *)
Inductive Content : Type :=
| Graphs (c : ChartData)
| TableView (header : list string) (rows : list (list val)).

Inductive Body : Type :=
| NoData
| Analysis (count : string) (table_note : bool) (content : Content).

(** The three conditional blocks of the page: the loading block (with its
    progress line, if any), the error block (with the error) and the data
    container. *)
Record Screen : Type := {
  spinner : option (option string);
  error_box : option val;
  body : option Body
}.

Section Effect.
(** [n.toLocaleString()], which the host's locale decides. *)
Variable toLocaleString : Z -> string.
Variable h : Host.

(** The setter calls of [fetchCrimeData] up to [await fetch(sampleUrl)]. *)
Definition before_response : list Update :=
  [setLoading true; setError VNull;
   setProgress "Fetching aggregated crime data from 2020...";
   setProgress "Loading data sample..."].

(** The setter calls between the response and the [finally] block: the
    rest of the [try] block, or the [catch] block. *)
Definition after_response (o : Outcome) : list Update :=
  match o with
  | fetch_rejects message => [setError message]
  | response_not_ok status statusText =>
      [setError
         (VStr (String.append "Failed to fetch data: "
                  (String.append (Number_toString status)
                     (String.append " " statusText))))]
  | json_rejects message => [setError message]
  | json_resolves sampleData =>
      [setProgress "Processing data...";
       setData sampleData;
       setProgress
         (String.append "Loaded "
            (String.append
               (toLocaleString (Z.of_nat (List.length sampleData)))
               " records for analysis"))]
  end.

(** The [finally] block, and the timer it starts. *)
Definition finally_block : list Update := [setLoading false].
Definition progress_timeout : list Update := [setProgress ""].

(** All setter calls of one run of [fetchCrimeData], in order. *)
Definition fetchCrimeData (o : Outcome) : list Update :=
  before_response ++ after_response o ++ finally_block.

(** The page for a state.  [chartData] is computed on every render. *)
Definition render (s : State) : Exc Screen :=
  c <- chartData h (data s) ;;
  Ok {| spinner :=
          if loading s
          then Some (if String.eqb (progress s) "" then None
                     else Some (progress s))
          else None;
        error_box := if ToBoolean (error s) then Some (error s) else None;
        body :=
          if negb (loading s) && negb (ToBoolean (error s)) then
            Some (if (0 <? List.length (data s))%nat then
                    Analysis
                      (toLocaleString (Z.of_nat (List.length (data s))))
                      (match viewMode s with table => true | graphs => false end)
                      (match viewMode s with
                       | graphs => Graphs c
                       | table =>
                           TableView (table_header (data s))
                                     (table_rows (data s))
                       end)
                  else NoData)
          else None |}.
End Effect.

End Component.

(** *** Vocabulary *)

(** The sum of the counts of a view. *)
Definition total {L : Type} (l : list (Entry L)) : Z :=
  fold_right Z.add 0 (map value l).

(** The records counted under the label ["Unknown"]: no truthy category,
    or the text ["Unknown"] itself. *)
Definition unknown_type (r : record) : bool :=
  negb (ToBoolean (get_prop r "crm_cd_desc"))
  || (if val_eq_dec (get_prop r "crm_cd_desc") (VStr "Unknown")
      then true else false).

(** The sum of the counts a Map holds. *)
Definition sum_counts {K : Type} (m : JMap K) : Z :=
  fold_right Z.add 0 (map snd m).

(** Whether a record is counted in [timeCount]. *)
Definition has_month (h : Host) (r : record) : bool :=
  match monthKey h r with
  | Some _ => true
  | None => false
  end.

(** A locale that writes numbers in plain decimal digits. *)
Definition plain_locale (n : Z) : string := Number_toString n.

(* ================================================================== *)
(** * Part II: properties *)
(* ================================================================== *)

(** ** Values *)

Lemma or_else_truthy (a b : val) :
  ToBoolean b = true -> ToBoolean (or_else a b) = true.
Proof.
  intros Hb. unfold or_else. destruct (ToBoolean a) eqn:Ha; assumption.
Qed.

Lemma canon_val_truthy (v : val) : ToBoolean v = true -> canon_val v = v.
Proof.
  destruct v as [| | b | x | s]; try reflexivity.
  destruct x; simpl; intros H; try reflexivity; discriminate.
Qed.

Lemma type_of_truthy (r : record) : ToBoolean (type_of r) = true.
Proof. apply or_else_truthy. reflexivity. Qed.

Lemma area_of_truthy (r : record) : ToBoolean (area_of r) = true.
Proof. apply or_else_truthy. reflexivity. Qed.

Lemma or0_count (x : option Z) : or0 x = count_of x.
Proof.
  destruct x as [v|]; simpl; [|reflexivity].
  destruct (Z.eqb_spec v 0); congruence.
Qed.

(** ** Maps *)

Section MapFacts.
Context {K : Type}.
Variable K_eq_dec : forall a b : K, {a = b} + {a <> b}.

Notation get := (assoc_get K_eq_dec).
Notation set := (assoc_set K_eq_dec).
Notation keys := (map (@fst K Z)).

Lemma get_set (k k' : K) (v : Z) (m : JMap K) :
  get k' (set k v m) = if K_eq_dec k' k then Some v else get k' m.
Proof.
  induction m as [|[k0 v0] m IH]; simpl.
  - destruct (K_eq_dec k' k); reflexivity.
  - destruct (K_eq_dec k k0) as [->|Hk]; simpl.
    + destruct (K_eq_dec k' k0); reflexivity.
    + destruct (K_eq_dec k' k0) as [->|Hk'].
      * destruct (K_eq_dec k0 k); [congruence|reflexivity].
      * exact IH.
Qed.

Lemma keys_set_old (k : K) (v : Z) (m : JMap K) :
  In k (keys m) -> keys (set k v m) = keys m.
Proof.
  induction m as [|[k0 v0] m IH]; simpl; [tauto|].
  intros Hin. destruct (K_eq_dec k k0) as [->|Hk]; simpl; [reflexivity|].
  f_equal. apply IH. destruct Hin; [congruence|assumption].
Qed.

Lemma keys_set_new (k : K) (v : Z) (m : JMap K) :
  ~ In k (keys m) -> keys (set k v m) = keys m ++ [k].
Proof.
  induction m as [|[k0 v0] m IH]; simpl; [reflexivity|].
  intros Hin. destruct (K_eq_dec k k0) as [->|Hk]; [tauto|].
  simpl. f_equal. apply IH. tauto.
Qed.

Lemma get_None (k : K) (m : JMap K) : get k m = None <-> ~ In k (keys m).
Proof.
  induction m as [|[k0 v0] m IH]; simpl; [tauto|].
  destruct (K_eq_dec k k0) as [->|Hk].
  - split; [discriminate|tauto].
  - rewrite IH. split; [intros H [E|I]; [congruence|tauto]|tauto].
Qed.

Lemma get_In (k : K) (v : Z) (m : JMap K) :
  NoDup (keys m) -> (get k m = Some v <-> In (k, v) m).
Proof.
  induction m as [|[k0 v0] m IH]; simpl; intros Hnd.
  - split; [discriminate|tauto].
  - inversion Hnd as [|? ? Hnotin Hnd']; subst.
    destruct (K_eq_dec k k0) as [->|Hk].
    + split.
      * intros [= ->]. left; reflexivity.
      * intros [[= ->]|Hin]; [reflexivity|].
        exfalso. apply Hnotin. apply (in_map fst) in Hin. exact Hin.
    + rewrite (IH Hnd'). split; [tauto|].
      intros [[= E _]|Hin]; [congruence|assumption].
Qed.

(** *** Counting a list of labels *)

Notation tally := (tally_from K_eq_dec).
Notation fidx := (first_index K_eq_dec).

Lemma tally_snoc (m : JMap K) (l : list K) (k : K) :
  tally m (l ++ [k]) = tally_step K_eq_dec (tally m l) k.
Proof. unfold tally_from. rewrite fold_left_app. reflexivity. Qed.

Lemma keys_tally_step (m : JMap K) (k : K) :
  keys (tally_step K_eq_dec m k) =
  if in_dec K_eq_dec k (keys m) then keys m else keys m ++ [k].
Proof.
  unfold tally_step. destruct (in_dec K_eq_dec k (keys m)).
  - apply keys_set_old; assumption.
  - apply keys_set_new; assumption.
Qed.

Lemma keys_tally_In (l : list K) (k : K) :
  In k (keys (tally [] l)) <-> In k l.
Proof.
  induction l as [|x l IH] using rev_ind; [simpl; tauto|].
  rewrite tally_snoc, keys_tally_step, in_app_iff. simpl.
  destruct (in_dec K_eq_dec x (keys (tally [] l))) as [Hin|Hin].
  - rewrite IH. split; [tauto|]. intros [H|[->|[]]]; [assumption|].
    apply IH; assumption.
  - rewrite in_app_iff, IH. simpl. tauto.
Qed.

Lemma keys_tally_NoDup (l : list K) : NoDup (keys (tally [] l)).
Proof.
  induction l as [|x l IH] using rev_ind; [constructor|].
  rewrite tally_snoc, keys_tally_step.
  destruct (in_dec K_eq_dec x (keys (tally [] l))) as [Hin|Hin];
    [assumption|].
  apply NoDup_app; [assumption|repeat constructor; simpl; tauto|].
  intros y Hy [<-|[]]. contradiction.
Qed.

Lemma get_tally (l : list K) (k : K) :
  count_of (get k (tally [] l)) = Z.of_nat (count_occ K_eq_dec l k).
Proof.
  induction l as [|x l IH] using rev_ind; [reflexivity|].
  rewrite tally_snoc. unfold tally_step at 1.
  rewrite get_set, count_occ_app. simpl.
  destruct (K_eq_dec k x) as [->|Hk].
  - destruct (K_eq_dec x x); [|congruence]. simpl.
    rewrite or0_count, IH. lia.
  - destruct (K_eq_dec x k); [congruence|]. rewrite IH. lia.
Qed.

Lemma get_tally_pos (l : list K) (k : K) (v : Z) :
  get k (tally [] l) = Some v ->
  v = Z.of_nat (count_occ K_eq_dec l k) /\ In k l.
Proof.
  intros Hget. split.
  - rewrite <- get_tally, Hget. reflexivity.
  - apply keys_tally_In. destruct (in_dec K_eq_dec k (keys (tally [] l)));
      [assumption|].
    apply get_None in n. congruence.
Qed.
End MapFacts.

(** ** Order of occurrence *)

Section BeforeFacts.
Context {A : Type}.

Lemma before_cons (x y z : A) (l : list A) :
  before x y (z :: l) <-> (x = z /\ In y l) \/ before x y l.
Proof.
  split.
  - intros H. inversion H; subst; [left; tauto|right; assumption].
  - intros [[-> H]|H]; [apply before_here|apply before_later]; assumption.
Qed.

Lemma before_nil (x y : A) : ~ before x y [].
Proof. intros H. inversion H. Qed.

Lemma before_app (x y : A) (l1 l2 : list A) :
  before x y (l1 ++ l2) <->
  before x y l1 \/ before x y l2 \/ (In x l1 /\ In y l2).
Proof.
  induction l1 as [|z l1 IH]; simpl.
  - split; [tauto|]. intros [H|[H|[[] _]]]; [|assumption].
    exfalso. exact (before_nil _ _ H).
  - rewrite !before_cons, IH, in_app_iff. split.
    + intros [[-> [H|H]]|[H|[H|[H1 H2]]]]; tauto.
    + intros [[[-> H]|H]|[H|[[->|H1] H2]]]; tauto.
Qed.

Lemma before_In (x y : A) (l : list A) : before x y l -> In x l /\ In y l.
Proof.
  induction 1 as [l H|z l H [IH1 IH2]]; simpl; tauto.
Qed.

Lemma before_firstn (x y : A) (n : nat) (l : list A) :
  before x y (firstn n l) -> before x y l.
Proof.
  intros H. rewrite <- (firstn_skipn n l). apply before_app. tauto.
Qed.

Lemma before_map {B : Type} (f : B -> A) (x y : A) (l : list B) :
  before x y (map f l) ->
  exists a b, x = f a /\ y = f b /\ before a b l.
Proof.
  induction l as [|z l IH]; simpl; intros H.
  - exfalso. exact (before_nil _ _ H).
  - apply before_cons in H. destruct H as [[-> Hin]|H].
    + apply in_map_iff in Hin. destruct Hin as [b [<- Hb]].
      exists z, b. repeat split. apply before_here. assumption.
    + destruct (IH H) as [a [b [-> [-> Hab]]]].
      exists a, b. repeat split. apply before_later. assumption.
Qed.

Lemma nth_error_before (l : list A) (i j : nat) (x y : A) :
  (i < j)%nat -> nth_error l i = Some x -> nth_error l j = Some y ->
  before x y l.
Proof.
  revert i j. induction l as [|z l IH]; intros i j Hij Hi Hj.
  - destruct i; discriminate.
  - destruct j as [|j]; [lia|]. simpl in Hj. destruct i as [|i].
    + injection Hi as ->. apply before_here.
      eapply nth_error_In; eassumption.
    + apply before_later. apply (IH i j); [lia|assumption|assumption].
Qed.
End BeforeFacts.

Section FirstIndex.
Context {K : Type}.
Variable K_eq_dec : forall a b : K, {a = b} + {a <> b}.

Notation fidx := (first_index K_eq_dec).
Notation tally := (tally_from K_eq_dec).
Notation keys := (map (@fst K Z)).

Lemma first_index_lt (k : K) (l : list K) (i : nat) :
  fidx k l = Some i -> (i < List.length l)%nat.
Proof.
  revert i. induction l as [|x l IH]; simpl; intros i; [discriminate|].
  destruct (K_eq_dec k x); [intros [= <-]; lia|].
  destruct (fidx k l) as [j|]; simpl; [|discriminate].
  intros [= <-]. specialize (IH j eq_refl). lia.
Qed.

Lemma first_index_In (k : K) (l : list K) :
  In k l -> exists i, fidx k l = Some i.
Proof.
  induction l as [|x l IH]; simpl; [tauto|]. intros H.
  destruct (K_eq_dec k x) as [->|Hk]; [eauto|].
  destruct IH as [i Hi]; [destruct H; congruence|].
  rewrite Hi. simpl. eauto.
Qed.

Lemma first_index_snoc (k x : K) (l : list K) :
  fidx k (l ++ [x]) =
  match fidx k l with
  | Some i => Some i
  | None => if K_eq_dec k x then Some (List.length l) else None
  end.
Proof.
  induction l as [|y l IH]; simpl.
  - destruct (K_eq_dec k x); reflexivity.
  - destruct (K_eq_dec k y); [reflexivity|]. rewrite IH.
    destruct (fidx k l); [reflexivity|].
    destruct (K_eq_dec k x); reflexivity.
Qed.

(** The keys of a tally stand in the order in which the labels first
    occur. *)
Lemma keys_tally_order (l : list K) (k1 k2 : K) :
  before k1 k2 (keys (tally [] l)) ->
  exists p q, fidx k1 l = Some p /\ fidx k2 l = Some q /\ (p < q)%nat.
Proof.
  induction l as [|x l IH] using rev_ind; intros Hb.
  - exfalso. exact (before_nil _ _ Hb).
  - rewrite tally_snoc, keys_tally_step in Hb.
    rewrite !first_index_snoc.
    destruct (in_dec K_eq_dec x (keys (tally [] l))) as [Hin|Hin].
    + destruct (IH Hb) as [p [q [-> [-> Hpq]]]]. eauto.
    + apply before_app in Hb. destruct Hb as [Hb|[Hb|[H1 H2]]].
      * destruct (IH Hb) as [p [q [-> [-> Hpq]]]]. eauto.
      * apply before_cons in Hb. destruct Hb as [[_ []]|Hb].
        exfalso. exact (before_nil _ _ Hb).
      * destruct H2 as [<-|[]].
        apply keys_tally_In in H1.
        destruct (first_index_In k1 l H1) as [p Hp]. rewrite Hp.
        destruct (fidx x l) as [q|] eqn:Hq.
        -- exfalso. apply Hin. apply keys_tally_In.
           clear - Hq. induction l as [|y l IH] in q, Hq |- *;
             simpl in *; [discriminate|].
           destruct (K_eq_dec x y); [left; congruence|right].
           destruct (first_index K_eq_dec x l); [eauto|discriminate].
        -- destruct (K_eq_dec x x); [|congruence].
           exists p, (List.length l). repeat split.
           eapply first_index_lt; eassumption.
Qed.
End FirstIndex.

(** ** Sorting *)

Section SortFacts.
Context {A : Type}.
Variable cmp : A -> A -> Z.

Lemma insert_split (x : A) (l : list A) :
  exists l1 l2,
    l = l1 ++ l2 /\ insert cmp x l = l1 ++ x :: l2 /\
    (forall y, In y l1 -> 0 < cmp x y).
Proof.
  induction l as [|y l IH]; simpl.
  - exists [], []. repeat split. intros y [].
  - destruct (Z.leb_spec (cmp x y) 0) as [Hle|Hgt].
    + exists [], (y :: l). repeat split. intros z [].
    + destruct IH as [l1 [l2 [-> [-> Hall]]]].
      exists (y :: l1), l2. repeat split.
      intros z [<-|Hz]; [assumption|auto].
Qed.

Lemma insert_perm (x : A) (l : list A) : Permutation (insert cmp x l) (x :: l).
Proof.
  destruct (insert_split x l) as [l1 [l2 [-> [-> _]]]].
  symmetry. apply Permutation_middle.
Qed.

Lemma sort_perm (l : list A) : Permutation (sort cmp l) l.
Proof.
  induction l as [|x l IH]; simpl; [constructor|].
  rewrite insert_perm. constructor. exact IH.
Qed.

Lemma sort_In (l : list A) (x : A) : In x (sort cmp l) <-> In x l.
Proof.
  split; apply Permutation_in; [|symmetry]; apply sort_perm.
Qed.

(** Stability: two elements the comparator ties keep their order. *)
Lemma sort_stable (l : list A) (a b : A) :
  cmp b a <= 0 -> before a b (sort cmp l) -> before a b l.
Proof.
  intros Htie. induction l as [|x l IH]; simpl; intros Hb.
  - exact Hb.
  - destruct (insert_split x (sort cmp l)) as [l1 [l2 [E [E' Hall]]]].
    rewrite E' in Hb. fold (sort cmp l) in *.
    apply before_cons.
    apply before_app in Hb. destruct Hb as [Hb|[Hb|[H1 H2]]].
    + right. apply IH. rewrite E. apply before_app. tauto.
    + apply before_cons in Hb. destruct Hb as [[-> Hin]|Hb].
      * left. split; [reflexivity|]. apply sort_In. rewrite E.
        apply in_app_iff. tauto.
      * right. apply IH. rewrite E. apply before_app. tauto.
    + destruct H2 as [<-|H2].
      * specialize (Hall a H1). lia.
      * right. apply IH. rewrite E. apply before_app. tauto.
Qed.

(** The sort depends only on the sign the comparator gives on the
    elements of the list. *)
Lemma insert_ext (cmp' : A -> A -> Z) (x : A) (l : list A) :
  (forall y, In y l -> (cmp x y <=? 0) = (cmp' x y <=? 0)) ->
  insert cmp x l = insert cmp' x l.
Proof.
  induction l as [|y l IH]; simpl; intros H; [reflexivity|].
  rewrite <- (H y) by tauto. rewrite IH by auto. reflexivity.
Qed.
End SortFacts.

Lemma sort_ext {A : Type} (cmp cmp' : A -> A -> Z) (l : list A) :
  (forall x y, In x l -> In y l -> (cmp x y <=? 0) = (cmp' x y <=? 0)) ->
  sort cmp l = sort cmp' l.
Proof.
  induction l as [|x l IH]; simpl; intros H; [reflexivity|].
  rewrite IH by auto. apply insert_ext.
  intros y Hy. apply H; [tauto|]. right. apply (sort_In cmp' l). exact Hy.
Qed.

Section SortedFacts.
Context {A : Type}.
Variable cmp : A -> A -> Z.
Variable R : A -> A -> Prop.
Hypothesis R_le : forall x y, cmp x y <= 0 -> R x y.
Hypothesis R_gt : forall x y, 0 < cmp x y -> R y x.
Hypothesis R_trans : forall x y z, R x y -> R y z -> R x z.

Lemma insert_sorted (x : A) (l : list A) :
  StronglySorted R l -> StronglySorted R (insert cmp x l).
Proof.
  induction 1 as [|y l Hs IH Hall]; simpl.
  - constructor; constructor.
  - destruct (Z.leb_spec (cmp x y) 0) as [Hle|Hgt].
    + constructor; [constructor; assumption|].
      constructor; [auto|].
      eapply Forall_impl; [|exact Hall]. intros z Hz.
      eapply R_trans; [apply R_le|]; eassumption.
    + constructor; [exact IH|].
      apply Forall_forall. intros z Hz.
      apply (Permutation_in _ (insert_perm cmp x l)) in Hz.
      destruct Hz as [<-|Hz]; [auto|].
      rewrite Forall_forall in Hall. auto.
Qed.

Lemma sort_sorted (l : list A) : StronglySorted R (sort cmp l).
Proof.
  induction l as [|x l IH]; simpl; [constructor|].
  apply insert_sorted. exact IH.
Qed.
End SortedFacts.

Lemma StronglySorted_app_inv {A : Type} (R : A -> A -> Prop) (l1 l2 : list A) :
  StronglySorted R (l1 ++ l2) ->
  StronglySorted R l1 /\ forall x y, In x l1 -> In y l2 -> R x y.
Proof.
  induction l1 as [|z l1 IH]; simpl; intros H.
  - split; [constructor|intros x y []].
  - inversion H as [|? ? Hs Hall]; subst. destruct (IH Hs) as [IH1 IH2].
    split.
    + constructor; [assumption|].
      apply Forall_forall. intros w Hw. rewrite Forall_forall in Hall.
      apply Hall. apply in_app_iff. tauto.
    + intros x y [<-|Hx] Hy; [|auto].
      rewrite Forall_forall in Hall. apply Hall. apply in_app_iff. tauto.
Qed.

Lemma StronglySorted_firstn {A : Type} (R : A -> A -> Prop) (n : nat) (l : list A) :
  StronglySorted R l -> StronglySorted R (firstn n l).
Proof.
  intros H. rewrite <- (firstn_skipn n l) in H.
  apply StronglySorted_app_inv in H. tauto.
Qed.

Lemma firstn_incl {A : Type} (n : nat) (l : list A) (x : A) :
  In x (firstn n l) -> In x l.
Proof.
  intros H. rewrite <- (firstn_skipn n l). apply in_app_iff. tauto.
Qed.

Lemma slice_0 {A : Type} (n : nat) (l : list A) : slice 0 n l = firstn n l.
Proof. unfold slice. rewrite Nat.sub_0_r. reflexivity. Qed.

(** ** The loop *)

Section LoopFacts.
Variable h : Host.

Lemma step_typeCount (st : LoopState) (r : record) :
  typeCount (step h st r) = tally_step val_eq_dec (typeCount st) (type_of r).
Proof.
  unfold step, tally_step, Map_set_val, Map_get_val, Map_set, Map_get. simpl.
  rewrite (canon_val_truthy _ (type_of_truthy r)). reflexivity.
Qed.

Lemma step_areaCount (st : LoopState) (r : record) :
  areaCount (step h st r) = tally_step val_eq_dec (areaCount st) (area_of r).
Proof.
  unfold step, tally_step, Map_set_val, Map_get_val, Map_set, Map_get. simpl.
  rewrite (canon_val_truthy _ (area_of_truthy r)). reflexivity.
Qed.

Lemma step_timeCount (st : LoopState) (r : record) :
  timeCount (step h st r) =
  match monthKey h r with
  | Some k => tally_step string_dec (timeCount st) k
  | None => timeCount st
  end.
Proof. reflexivity. Qed.

Lemma fold_step (data : list record) (st : LoopState) :
  let st' := fold_left (step h) data st in
  typeCount st' = tally_from val_eq_dec (typeCount st) (map type_of data) /\
  areaCount st' = tally_from val_eq_dec (areaCount st) (map area_of data) /\
  timeCount st' = tally_from string_dec (timeCount st) (observed_keys h data) /\
  processed st' = processed st + Z.of_nat (List.length data).
Proof.
  revert st. induction data as [|r data IH]; intros st.
  - simpl. repeat split. lia.
  - cbn [fold_left]. destruct (IH (step h st r)) as [Ht [Ha [Hm Hp]]].
    cbv zeta. rewrite Ht, Ha, Hm, Hp.
    rewrite step_typeCount, step_areaCount, step_timeCount.
    repeat split.
    + unfold observed_keys. cbn [flat_map].
      destruct (monthKey h r); reflexivity.
    + cbn [processed step List.length]. lia.
Qed.

Lemma loop_typeCount (data : list record) :
  typeCount (loop h data) = tally_from val_eq_dec [] (map type_of data).
Proof. apply (fold_step data init). Qed.

Lemma loop_areaCount (data : list record) :
  areaCount (loop h data) = tally_from val_eq_dec [] (map area_of data).
Proof. apply (fold_step data init). Qed.

Lemma loop_timeCount (data : list record) :
  timeCount (loop h data) = tally_from string_dec [] (observed_keys h data).
Proof. apply (fold_step data init). Qed.

Lemma loop_processed (data : list record) :
  processed (loop h data) = Z.of_nat (List.length data).
Proof. apply (fold_step data init). Qed.

(** *** The entries of the crime types never throw *)

Lemma type_entry_truthy (k : val) (v : Z) :
  ToBoolean k = true -> type_entry (k, v) = Ok (shown_entry (k, v)).
Proof.
  destruct k as [| | b | x | s]; simpl; try discriminate; try reflexivity.
  intros _. unfold shown_entry, shown. simpl.
  destruct (40 <? js_length s); reflexivity.
Qed.

Lemma mapM_type_entry (m : list (val * Z)) :
  (forall k, In k (map fst m) -> ToBoolean k = true) ->
  mapM type_entry m = Ok (map shown_entry m).
Proof.
  induction m as [|[k v] m IH]; simpl; intros H; [reflexivity|].
  change (bind (type_entry (k, v))
            (fun y => ys <- mapM type_entry m ;; Ok (y :: ys)) =
          Ok (shown_entry (k, v) :: map shown_entry m)).
  rewrite type_entry_truthy by auto. simpl.
  rewrite IH by auto. reflexivity.
Qed.

Lemma typeCount_keys_truthy (data : list record) (k : val) :
  In k (map fst (typeCount (loop h data))) -> ToBoolean k = true.
Proof.
  rewrite loop_typeCount, keys_tally_In, in_map_iff.
  intros [r [<- _]]. apply type_of_truthy.
Qed.

(** [chartData] returns, and what it returns. *)
Lemma chartData_eq (data : list record) :
  chartData h data =
  Ok {| crimesByType := firstn 15 (all_types h data);
        crimesByArea := firstn 15 (all_areas h data);
        crimesOverTime :=
          sort (by_name h) (map name_value_entry (timeCount (loop h data)));
        totalCount := Z.of_nat (List.length data) |}.
Proof.
  unfold chartData, all_types, all_areas. destruct data as [|r data].
  - reflexivity.
  - cbn [List.length Nat.eqb]. cbv zeta. unfold Map_entries.
    rewrite mapM_type_entry by apply typeCount_keys_truthy.
    cbn [bind]. rewrite !slice_0, loop_processed. reflexivity.
Qed.
End LoopFacts.

(** ** The total *)

(** C1: for every sequence of records, [chartData] returns a result whose
    [totalCount] is the length of the sequence, whatever the fields of the
    records hold. *)
Theorem totalCount_is_length (h : Host) (data : list record) :
  exists res,
    chartData h data = Ok res /\
    totalCount res = Z.of_nat (List.length data).
Proof.
  eexists. split; [apply chartData_eq|reflexivity].
Qed.

(** C9: [chartData] returns on every sequence of records and throws on
    none: no record, whatever is missing, empty or malformed in it, leads
    to a [TypeError]. *)
Theorem chartData_total (h : Host) (data : list record) :
  (exists res, chartData h data = Ok res) /\
  (forall e, chartData h data <> Throw e).
Proof.
  rewrite chartData_eq. split; [eexists; reflexivity|discriminate].
Qed.

(** ** The entries of the ranked views *)

Section ViewFacts.
Variable h : Host.

Lemma typeCount_entry (data : list record) (k : val) (v : Z) :
  In (k, v) (typeCount (loop h data)) ->
  v = occurrences k (map type_of data) /\ exists r, In r data /\ type_of r = k.
Proof.
  rewrite loop_typeCount. intros Hin.
  apply (proj2 (get_In val_eq_dec k v _ (keys_tally_NoDup val_eq_dec _)))
    in Hin.
  apply get_tally_pos in Hin. destruct Hin as [Hv Hk].
  split; [exact Hv|]. apply in_map_iff in Hk.
  destruct Hk as [r [Hr Hin]]. exists r. split; assumption.
Qed.

Lemma areaCount_entry (data : list record) (k : val) (v : Z) :
  In (k, v) (areaCount (loop h data)) ->
  v = occurrences k (map area_of data) /\ exists r, In r data /\ area_of r = k.
Proof.
  rewrite loop_areaCount. intros Hin.
  apply (proj2 (get_In val_eq_dec k v _ (keys_tally_NoDup val_eq_dec _)))
    in Hin.
  apply get_tally_pos in Hin. destruct Hin as [Hv Hk].
  split; [exact Hv|]. apply in_map_iff in Hk.
  destruct Hk as [r [Hr Hin]]. exists r. split; assumption.
Qed.

Lemma all_types_In (data : list record) (e : Entry val) :
  In e (all_types h data) <->
  exists k v, In (k, v) (typeCount (loop h data)) /\
              e = {| name := shown k; fullName := Some k; value := v |}.
Proof.
  unfold all_types. rewrite sort_In, in_map_iff. split.
  - intros [[k v] [<- Hin]]. exists k, v. split; [assumption|reflexivity].
  - intros [k [v [Hin ->]]]. exists (k, v). split; [reflexivity|assumption].
Qed.

Lemma all_areas_In (data : list record) (e : Entry val) :
  In e (all_areas h data) <->
  exists k v, In (k, v) (areaCount (loop h data)) /\
              e = {| name := k; fullName := None; value := v |}.
Proof.
  unfold all_areas. rewrite sort_In, in_map_iff. split.
  - intros [[k v] [<- Hin]]. exists k, v. split; [assumption|reflexivity].
  - intros [k [v [Hin ->]]]. exists (k, v). split; [reflexivity|assumption].
Qed.

Lemma crimesByType_In (data : list record) (e : Entry val) :
  In e (firstn 15 (all_types h data)) ->
  exists k, fullName e = Some k /\ name e = shown k /\
            value e = occurrences k (map type_of data) /\
            exists r, In r data /\ type_of r = k.
Proof.
  intros Hin. apply firstn_incl, all_types_In in Hin.
  destruct Hin as [k [v [Hin ->]]]. apply typeCount_entry in Hin.
  destruct Hin as [-> Hr]. exists k. auto.
Qed.

Lemma crimesByArea_In (data : list record) (e : Entry val) :
  In e (firstn 15 (all_areas h data)) ->
  fullName e = None /\
  value e = occurrences (name e) (map area_of data) /\
  exists r, In r data /\ area_of r = name e.
Proof.
  intros Hin. apply firstn_incl, all_areas_In in Hin.
  destruct Hin as [k [v [Hin ->]]]. apply areaCount_entry in Hin.
  destruct Hin as [-> Hr]. auto.
Qed.
End ViewFacts.

(** ** Display labels *)

Lemma substring_length (n : nat) (s : string) :
  (n <= String.length s)%nat -> String.length (String.substring 0 n s) = n.
Proof.
  revert s. induction n as [|n IH]; intros s Hn.
  - destruct s; reflexivity.
  - destruct s as [|c s]; simpl in *; [lia|]. rewrite IH by lia. reflexivity.
Qed.

Lemma append_length (a b : string) :
  String.length (String.append a b) = (String.length a + String.length b)%nat.
Proof. induction a as [|c a IH]; simpl; [reflexivity|]. rewrite IH. reflexivity. Qed.

Lemma shown_long (s : string) :
  (40 < String.length s)%nat ->
  shown (VStr s) = VStr (String.append (String.substring 0 37 s) "...").
Proof.
  intros Hlen. unfold shown, js_length, js_substring.
  destruct (Z.ltb_spec 40 (Z.of_nat (String.length s))); [|lia].
  rewrite (Nat.min_l 0), (Nat.min_l 37) by lia. reflexivity.
Qed.

Lemma shown_short (s : string) :
  (String.length s <= 40)%nat -> shown (VStr s) = VStr s.
Proof.
  intros Hlen. unfold shown, js_length.
  destruct (Z.ltb_spec 40 (Z.of_nat (String.length s))); [lia|reflexivity].
Qed.

(** C7: every entry of [crimesByType] carries in [fullName] the label as
    it was counted, and in [name] the first 37 characters of it followed
    by ["..."] when the label is longer than 40 characters, the label
    itself otherwise; a label of 45 characters is shown by its first 37
    characters and the three dots, 40 characters in all. *)
Theorem crimesByType_display_label (h : Host) (data : list record) :
  exists res,
    chartData h data = Ok res /\
    forall e, In e (crimesByType res) ->
      exists full,
        fullName e = Some full /\
        (exists r, In r data /\ type_of r = full) /\
        (forall s, full = VStr s -> (40 < String.length s)%nat ->
           name e = VStr (String.append (String.substring 0 37 s) "...")) /\
        (forall s, full = VStr s -> (String.length s <= 40)%nat ->
           name e = full) /\
        ((forall s, full <> VStr s) -> name e = full) /\
        (forall s, full = VStr s -> String.length s = 45%nat ->
           exists d,
             name e = VStr d /\
             d = String.append (String.substring 0 37 s) "..." /\
             String.length d = 40%nat).
Proof.
  eexists. split; [apply chartData_eq|]. cbn [crimesByType].
  intros e He. apply crimesByType_In in He.
  destruct He as [k [Hfull [Hname [_ Hr]]]].
  exists k. split; [exact Hfull|]. split; [exact Hr|]. rewrite Hname.
  repeat split.
  - intros s -> Hlen. apply shown_long. exact Hlen.
  - intros s -> Hlen. apply shown_short. exact Hlen.
  - intros Hns. destruct k; try reflexivity. exfalso. apply (Hns s). reflexivity.
  - intros s -> Hlen. eexists. split; [apply shown_long; lia|].
    split; [reflexivity|].
    rewrite append_length, substring_length by lia. reflexivity.
Qed.

(** The label of 45 characters of the samples, through [chartData]. *)
Lemma crimesByType_display_label_witness :
  exists res,
    chartData UTCHost.host [Samples.long_names] = Ok res /\
    map name (crimesByType res) =
      [VStr "BURGLARY FROM VEHICLE, ATTEMPTED - NI..."] /\
    map fullName (crimesByType res) = [Some (VStr Samples.long_label)].
Proof.
  destruct (crimesByType_display_label UTCHost.host [Samples.long_names])
    as [res [Hres Hall]].
  exists res. split; [exact Hres|].
  vm_compute in Hres. injection Hres as <-. split; reflexivity.
Defined.

(** ** The areas *)

(** C2, as the code has it: an entry of [crimesByArea] has no [fullName]
    and its [name] is the area label as it was counted, of whatever
    length; nothing is cut and no dots are added. *)
Theorem crimesByArea_plain_label (h : Host) (data : list record) :
  exists res,
    chartData h data = Ok res /\
    forall e, In e (crimesByArea res) ->
      fullName e = None /\ exists r, In r data /\ name e = area_of r.
Proof.
  eexists. split; [apply chartData_eq|]. cbn [crimesByArea].
  intros e He. apply crimesByArea_In in He.
  destruct He as [Hfull [_ [r [Hr Hk]]]]. split; [exact Hfull|].
  exists r. split; [exact Hr|]. symmetry. exact Hk.
Qed.

Lemma crimesByArea_plain_label_witness :
  exists res,
    chartData UTCHost.host [Samples.long_names] = Ok res /\
    map name (crimesByArea res) = [VStr Samples.long_label].
Proof.
  destruct (crimesByArea_plain_label UTCHost.host [Samples.long_names])
    as [res [Hres Hall]].
  exists res. split; [exact Hres|].
  vm_compute in Hres. injection Hres as <-. reflexivity.
Defined.

(** C2, as the claim has it, fails on a record whose area name has 45
    characters: the one entry of [crimesByArea] has no [fullName], and its
    [name] is the whole label, not what [crimesByType] shows for it. *)
Lemma crimesByArea_display_label_fails :
  exists res,
    chartData UTCHost.host [Samples.long_names] = Ok res /\
    String.length Samples.long_label = 45%nat /\
    ~ (forall e, In e (crimesByArea res) ->
         exists full, fullName e = Some full /\ name e = shown full) /\
    ~ (forall e, In e (crimesByArea res) ->
         name e = VStr (String.append
                          (String.substring 0 37 Samples.long_label) "...")).
Proof.
  eexists. split; [vm_compute; reflexivity|]. split; [reflexivity|].
  split; intros H.
  - destruct (H _ (or_introl eq_refl)) as [full [Hfull _]]. discriminate.
  - specialize (H _ (or_introl eq_refl)). discriminate.
Qed.

(** ** One record *)

Section StepFacts.
Variable h : Host.

Lemma tally_step_count (m : JMap val) (label k : val) :
  canon_val label = label ->
  count_of (Map_get_val (tally_step val_eq_dec m label) k) =
  count_of (Map_get_val m k) +
  (if val_eq_dec (canon_val k) label then 1 else 0).
Proof.
  intros Hc. unfold Map_get_val, Map_get, tally_step.
  rewrite get_set. destruct (val_eq_dec (canon_val k) label) as [->|Hk].
  - simpl. rewrite or0_count. reflexivity.
  - lia.
Qed.

Lemma step_type_count (st : LoopState) (r : record) (k : val) :
  count_of (Map_get_val (typeCount (step h st r)) k) =
  count_of (Map_get_val (typeCount st) k) +
  (if val_eq_dec (canon_val k) (type_of r) then 1 else 0).
Proof.
  rewrite step_typeCount. apply tally_step_count.
  apply canon_val_truthy, type_of_truthy.
Qed.

Lemma step_area_count (st : LoopState) (r : record) (k : val) :
  count_of (Map_get_val (areaCount (step h st r)) k) =
  count_of (Map_get_val (areaCount st) k) +
  (if val_eq_dec (canon_val k) (area_of r) then 1 else 0).
Proof.
  rewrite step_areaCount. apply tally_step_count.
  apply canon_val_truthy, area_of_truthy.
Qed.

Lemma tally_step_count_str (m : JMap string) (key k : string) :
  count_of (Map_get_str (tally_step string_dec m key) k) =
  count_of (Map_get_str m k) + (if string_dec k key then 1 else 0).
Proof.
  unfold Map_get_str, Map_get, tally_step.
  rewrite get_set. destruct (string_dec k key) as [->|Hk].
  - simpl. rewrite or0_count. reflexivity.
  - lia.
Qed.
End StepFacts.

Lemma ToBoolean_text (s : string) : ToBoolean (VStr s) = true <-> s <> "".
Proof.
  simpl. destruct (String.eqb_spec s ""); simpl; split; congruence.
Qed.

(** C3, as the code has it: the category counted is the category field
    when it is truthy (for a text: present and not empty), ["Unknown"]
    otherwise; the area counted is the area-name field when it is truthy,
    else the fallback area field when that one is truthy, else
    ["Unknown"]; a missing, [null] or empty field is not truthy; and the
    record adds one to the count of its category and to the count of its
    area, and leaves every other count as it was. *)
Theorem labels_counted (h : Host) (st : LoopState) (r : record) :
  let category := get_prop r "crm_cd_desc" in
  let area_name := get_prop r "area_name" in
  let area := get_prop r "area" in
  (ToBoolean category = true -> type_of r = category) /\
  (ToBoolean category = false -> type_of r = VStr "Unknown") /\
  (ToBoolean area_name = true -> area_of r = area_name) /\
  (ToBoolean area_name = false -> ToBoolean area = true -> area_of r = area) /\
  (ToBoolean area_name = false -> ToBoolean area = false ->
   area_of r = VStr "Unknown") /\
  (forall s, ToBoolean (VStr s) = true <-> s <> "") /\
  ToBoolean VUndefined = false /\ ToBoolean VNull = false /\
  (forall k,
     count_of (Map_get_val (typeCount (step h st r)) k) =
     count_of (Map_get_val (typeCount st) k) +
     (if val_eq_dec (canon_val k) (type_of r) then 1 else 0)) /\
  (forall k,
     count_of (Map_get_val (areaCount (step h st r)) k) =
     count_of (Map_get_val (areaCount st) k) +
     (if val_eq_dec (canon_val k) (area_of r) then 1 else 0)).
Proof.
  cbv zeta. unfold type_of, area_of, or_else.
  split; [intros H; rewrite H; reflexivity|].
  split; [intros H; rewrite H; reflexivity|].
  split; [intros H; rewrite H; cbv iota; rewrite H; reflexivity|].
  split; [intros H1 H2; rewrite H1; cbv iota; rewrite H2; reflexivity|].
  split; [intros H1 H2; rewrite H1; cbv iota; rewrite H2; reflexivity|].
  split; [exact ToBoolean_text|].
  split; [reflexivity|]. split; [reflexivity|].
  split; intros k; [apply step_type_count|apply step_area_count].
Qed.

Lemma labels_counted_witness :
  area_of Samples.empty_area_name = VStr "CENTRAL" /\
  type_of Samples.bare = VStr "Unknown" /\
  count_of (Map_get_val
              (areaCount (step UTCHost.host init Samples.empty_area_name))
              (VStr "CENTRAL")) = 1.
Proof.
  pose proof (labels_counted UTCHost.host init Samples.empty_area_name) as H.
  cbv zeta in H.
  destruct H as [_ [_ [_ [Harea [_ [_ [_ [_ [_ Hcount]]]]]]]]].
  pose proof (labels_counted UTCHost.host init Samples.bare) as H'.
  cbv zeta in H'. destruct H' as [_ [Htype _]].
  split; [apply Harea; reflexivity|].
  split; [apply Htype; reflexivity|].
  rewrite Hcount. reflexivity.
Defined.

(** C3, as the claim has it, fails on a record whose area-name field is
    present and empty: the field is there, yet the area counted is the
    fallback field. *)
Lemma area_name_present_not_counted :
  get_prop Samples.empty_area_name "area_name" = VStr "" /\
  get_prop Samples.empty_area_name "area_name" <> VUndefined /\
  area_of Samples.empty_area_name = VStr "CENTRAL" /\
  area_of Samples.empty_area_name <>
    get_prop Samples.empty_area_name "area_name" /\
  exists res,
    chartData UTCHost.host [Samples.empty_area_name] = Ok res /\
    crimesByArea res =
      [{| name := VStr "CENTRAL"; fullName := None; value := 1 |}].
Proof.
  repeat split; try discriminate.
  eexists. split; vm_compute; reflexivity.
Qed.

(** ** The table *)

(** C10: in the table, a cell whose field resolves to a falsy value
    shows ["N/A"] and not the value: so for a missing field and for
    [null], and so too for an empty string, for the number 0 (of either
    sign), for [NaN] and for [false]. *)
Theorem falsy_cell_shows_NA (data : list record) (i j : nat)
    (r : record) (column : string) :
  nth_error (tableData data) i = Some r ->
  nth_error (columns data) j = Some column ->
  get_prop r column = VUndefined \/ get_prop r column = VNull \/
  get_prop r column = VStr "" \/
  (exists sign, get_prop r column = VNum (S754_zero sign)) \/
  get_prop r column = VNum S754_nan \/ get_prop r column = VBool false ->
  (exists row,
     nth_error (table_rows data) i = Some row /\
     nth_error row j = Some (VStr "N/A")) /\
  cell r column = VStr "N/A" /\
  cell r column <> get_prop r column.
Proof.
  intros Hr Hc Hv.
  assert (Hcell : cell r column = VStr "N/A").
  { unfold cell, or_else.
    destruct Hv as [->|[->|[->|[[sg ->]|[->| ->]]]]]; reflexivity. }
  split; [|split; [exact Hcell|]].
  - exists (map (fun column => cell r column) (columns data)). split.
    + unfold table_rows. rewrite nth_error_map, Hr. reflexivity.
    + rewrite nth_error_map, Hc. simpl. rewrite Hcell. reflexivity.
  - rewrite Hcell.
    destruct Hv as [->|[->|[->|[[sg ->]|[->| ->]]]]]; discriminate.
Qed.

Lemma falsy_cell_shows_NA_witness :
  table_rows [Samples.falsy_fields] =
    [[VStr "N/A"; VStr "N/A"; VStr "N/A"]] /\
  cell Samples.falsy_fields "vict_age" = VStr "N/A".
Proof.
  split; [reflexivity|].
  apply (falsy_cell_shows_NA [Samples.falsy_fields] 0 1
           Samples.falsy_fields "vict_age"); [reflexivity|reflexivity|].
  right; right; right; left. exists false. reflexivity.
Defined.

(** ** Ranking *)

Lemma before_map_fwd {A B : Type} (f : A -> B) (x y : A) (l : list A) :
  before x y l -> before (f x) (f y) (map f l).
Proof.
  induction 1 as [l H|z l H IH]; simpl.
  - apply before_here. apply in_map. exact H.
  - apply before_later. exact IH.
Qed.

Lemma NoDup_map_injective {A B : Type} (f : A -> B) (l : list A) :
  (forall x y, f x = f y -> x = y) -> NoDup l -> NoDup (map f l).
Proof.
  intros Hinj. induction 1 as [|x l Hx Hnd IH]; simpl; constructor.
  - rewrite in_map_iff. intros [y [Hy Hin]]. apply Hinj in Hy. congruence.
  - exact IH.
Qed.

Lemma NoDup_firstn {A : Type} (n : nat) (l : list A) :
  NoDup l -> NoDup (firstn n l).
Proof.
  intros H. rewrite <- (firstn_skipn n l) in H.
  apply NoDup_app_remove_r in H. exact H.
Qed.

Lemma by_value_desc_sorted {L : Type} (l : list (Entry L)) :
  StronglySorted value_ge (sort by_value_desc l).
Proof.
  apply sort_sorted; unfold by_value_desc, value_ge; intros; lia.
Qed.

(** A view ranked by count: the labels are counted, every entry of the
    count becomes an object by [mk], the objects are sorted by falling
    [value] and the first [n] are kept. *)
Section Ranked.
Context {B : Type}.
Variable mk : val * Z -> Entry val.
Variable lab : Entry val -> B.
Variable inj : val -> B.
Hypothesis inj_injective : forall a b, inj a = inj b -> a = b.
Hypothesis lab_mk : forall k v, lab (mk (k, v)) = inj k.
Hypothesis value_mk : forall k v, value (mk (k, v)) = v.
Variable labels : list val.
Variable n : nat.

Let counts : JMap val := tally_from val_eq_dec [] labels.
Let ranked : list (Entry val) := sort by_value_desc (map mk counts).

Lemma ranked_all_In (e : Entry val) :
  In e ranked <->
  exists k, In k labels /\ e = mk (k, occurrences k labels).
Proof.
  unfold ranked. rewrite sort_In, in_map_iff. split.
  - intros [[k v] [<- Hin]].
    apply (proj2 (get_In val_eq_dec k v _ (keys_tally_NoDup val_eq_dec _)))
      in Hin.
    apply get_tally_pos in Hin. destruct Hin as [-> Hk].
    exists k. split; [exact Hk|reflexivity].
  - intros [k [Hk ->]]. exists (k, occurrences k labels).
    split; [reflexivity|].
    apply (get_In val_eq_dec); [apply keys_tally_NoDup|].
    apply (keys_tally_In val_eq_dec) in Hk.
    destruct (assoc_get val_eq_dec k counts) as [v|] eqn:Hget.
    + pose proof (get_tally_pos val_eq_dec _ _ _ Hget) as [-> _].
      reflexivity.
    + apply get_None in Hget. contradiction.
Qed.

Lemma ranked_labels : map lab (map mk counts) = map inj (map fst counts).
Proof.
  rewrite !map_map. apply map_ext. intros [k v]. apply lab_mk.
Qed.

Lemma ranked_sorted : StronglySorted value_ge (firstn n ranked).
Proof. apply StronglySorted_firstn, by_value_desc_sorted. Qed.

Lemma ranked_length :
  List.length (firstn n ranked) =
  Nat.min n (List.length (nodup val_eq_dec labels)).
Proof.
  rewrite length_firstn. f_equal. unfold ranked.
  rewrite (Permutation_length (sort_perm _ _)), length_map.
  rewrite <- (length_map fst counts).
  apply Permutation_length, NoDup_Permutation.
  - apply keys_tally_NoDup.
  - apply NoDup_nodup.
  - intros k. unfold counts. rewrite keys_tally_In, nodup_In. tauto.
Qed.

Lemma ranked_NoDup : NoDup (map lab (firstn n ranked)).
Proof.
  rewrite <- firstn_map. apply NoDup_firstn.
  apply (Permutation_NoDup (l := map lab (map mk counts))).
  - apply Permutation_map. symmetry. apply sort_perm.
  - rewrite ranked_labels. apply NoDup_map_injective; [exact inj_injective|].
    apply keys_tally_NoDup.
Qed.

Lemma ranked_value (e : Entry val) :
  In e (firstn n ranked) ->
  exists k, In k labels /\ lab e = inj k /\ value e = occurrences k labels.
Proof.
  intros Hin. apply firstn_incl, ranked_all_In in Hin.
  destruct Hin as [k [Hk ->]]. exists k. auto.
Qed.

(** A label that is not in the view has no more occurrences than any
    label that is. *)
Lemma ranked_top (k : val) (e : Entry val) :
  In k labels -> In e (firstn n ranked) ->
  ~ In (inj k) (map lab (firstn n ranked)) ->
  occurrences k labels <= value e.
Proof.
  intros Hk He Hout.
  assert (Hin : In (mk (k, occurrences k labels)) ranked).
  { apply ranked_all_In. exists k. auto. }
  rewrite <- (firstn_skipn n ranked) in Hin. apply in_app_iff in Hin.
  destruct Hin as [Hin|Hin].
  - exfalso. apply Hout. rewrite <- (lab_mk k (occurrences k labels)).
    apply in_map. exact Hin.
  - pose proof (by_value_desc_sorted (map mk counts)) as Hs.
    fold ranked in Hs. rewrite <- (firstn_skipn n ranked) in Hs.
    apply StronglySorted_app_inv in Hs. destruct Hs as [_ Hs].
    specialize (Hs _ _ He Hin). unfold value_ge in Hs.
    rewrite value_mk in Hs. exact Hs.
Qed.

(** Of two entries with the same count, the one in front is the one
    whose label occurs first. *)
Lemma ranked_ties (i j : nat) (e1 e2 : Entry val) :
  (i < j)%nat ->
  nth_error (firstn n ranked) i = Some e1 ->
  nth_error (firstn n ranked) j = Some e2 ->
  value e1 = value e2 ->
  exists k1 k2 p q,
    lab e1 = inj k1 /\ lab e2 = inj k2 /\
    first_index val_eq_dec k1 labels = Some p /\
    first_index val_eq_dec k2 labels = Some q /\ (p < q)%nat.
Proof.
  intros Hij H1 H2 Htie.
  pose proof (nth_error_before _ _ _ _ _ Hij H1 H2) as Hb.
  apply before_firstn in Hb. unfold ranked in Hb.
  apply sort_stable in Hb; [|unfold by_value_desc; lia].
  apply before_map in Hb. destruct Hb as [[k1 v1] [[k2 v2] [-> [-> Hb]]]].
  apply (before_map_fwd fst) in Hb. simpl in Hb.
  apply keys_tally_order in Hb. destruct Hb as [p [q [Hp [Hq Hpq]]]].
  exists k1, k2, p, q. rewrite !lab_mk. auto.
Qed.
End Ranked.

Section RankedViews.
Variable h : Host.
Variable data : list record.

Lemma all_types_ranked :
  all_types h data =
  sort by_value_desc
    (map shown_entry (tally_from val_eq_dec [] (map type_of data))).
Proof. unfold all_types. rewrite loop_typeCount. reflexivity. Qed.

Lemma all_areas_ranked :
  all_areas h data =
  sort by_value_desc
    (map name_value_entry (tally_from val_eq_dec [] (map area_of data))).
Proof. unfold all_areas. rewrite loop_areaCount. reflexivity. Qed.

Lemma Some_injective (a b : val) : Some a = Some b -> a = b.
Proof. congruence. Qed.

Lemma id_injective (a b : val) : (fun k : val => k) a = (fun k => k) b -> a = b.
Proof. exact (fun H => H). Qed.
End RankedViews.

(** C4: [crimesByType] and [crimesByArea] have at most 15 entries, in
    order of non-increasing [value]; when there are more than 15 distinct
    labels the view has exactly 15 of them, one entry per label, each
    with the number of records of that label and nothing else added to
    it, and a label left out has no more records than any label kept. *)
Theorem ranked_views_top15 (h : Host) (data : list record) :
  exists res,
    chartData h data = Ok res /\
    (List.length (crimesByType res) <= 15)%nat /\
    (List.length (crimesByArea res) <= 15)%nat /\
    StronglySorted value_ge (crimesByType res) /\
    StronglySorted value_ge (crimesByArea res) /\
    List.length (crimesByType res) =
      Nat.min 15 (List.length (nodup val_eq_dec (map type_of data))) /\
    List.length (crimesByArea res) =
      Nat.min 15 (List.length (nodup val_eq_dec (map area_of data))) /\
    NoDup (map fullName (crimesByType res)) /\
    NoDup (map name (crimesByArea res)) /\
    (forall e, In e (crimesByType res) ->
       exists k, In k (map type_of data) /\ fullName e = Some k /\
                 value e = occurrences k (map type_of data)) /\
    (forall e, In e (crimesByArea res) ->
       In (name e) (map area_of data) /\
       value e = occurrences (name e) (map area_of data)) /\
    (forall k e, In k (map type_of data) -> In e (crimesByType res) ->
       ~ In (Some k) (map fullName (crimesByType res)) ->
       occurrences k (map type_of data) <= value e) /\
    (forall k e, In k (map area_of data) -> In e (crimesByArea res) ->
       ~ In k (map name (crimesByArea res)) ->
       occurrences k (map area_of data) <= value e).
Proof.
  eexists. split; [apply chartData_eq|].
  cbn [crimesByType crimesByArea].
  rewrite all_types_ranked, all_areas_ranked.
  pose proof (ranked_length shown_entry (map type_of data) 15) as HlenT.
  pose proof (ranked_length name_value_entry (map area_of data) 15) as HlenA.
  split; [rewrite HlenT; apply Nat.le_min_l|].
  split; [rewrite HlenA; apply Nat.le_min_l|].
  split; [apply ranked_sorted|]. split; [apply ranked_sorted|].
  split; [exact HlenT|]. split; [exact HlenA|].
  split; [apply (ranked_NoDup shown_entry fullName Some Some_injective);
          reflexivity|].
  split; [apply (ranked_NoDup name_value_entry name (fun k => k) id_injective);
          reflexivity|].
  split.
  { intros e He.
    exact (ranked_value shown_entry fullName Some
             (fun _ _ => eq_refl) (fun _ _ => eq_refl) _ _ e He). }
  split.
  { intros e He.
    destruct (ranked_value name_value_entry name (fun k => k)
                (fun _ _ => eq_refl) (fun _ _ => eq_refl) _ _ e He)
      as [k [Hk [-> Hv]]].
    auto. }
  split.
  - intros k e Hk He Hout.
    exact (ranked_top shown_entry fullName Some
             (fun _ _ => eq_refl) (fun _ _ => eq_refl) _ _ k e Hk He Hout).
  - intros k e Hk He Hout.
    exact (ranked_top name_value_entry name (fun k => k)
             (fun _ _ => eq_refl) (fun _ _ => eq_refl) _ _ k e Hk He Hout).
Qed.

(** C8: in [crimesByType] and in [crimesByArea], of two entries with the
    same [value] the one in front is the one whose label occurs first in
    the sequence of records. *)
Theorem ties_in_first_occurrence_order (h : Host) (data : list record) :
  exists res,
    chartData h data = Ok res /\
    (forall i j e1 e2,
       (i < j)%nat ->
       nth_error (crimesByType res) i = Some e1 ->
       nth_error (crimesByType res) j = Some e2 ->
       value e1 = value e2 ->
       exists k1 k2 p q,
         fullName e1 = Some k1 /\ fullName e2 = Some k2 /\
         first_index val_eq_dec k1 (map type_of data) = Some p /\
         first_index val_eq_dec k2 (map type_of data) = Some q /\
         (p < q)%nat) /\
    (forall i j e1 e2,
       (i < j)%nat ->
       nth_error (crimesByArea res) i = Some e1 ->
       nth_error (crimesByArea res) j = Some e2 ->
       value e1 = value e2 ->
       exists p q,
         first_index val_eq_dec (name e1) (map area_of data) = Some p /\
         first_index val_eq_dec (name e2) (map area_of data) = Some q /\
         (p < q)%nat).
Proof.
  eexists. split; [apply chartData_eq|].
  cbn [crimesByType crimesByArea].
  rewrite all_types_ranked, all_areas_ranked. split.
  - intros i j e1 e2 Hij H1 H2 Htie.
    exact (ranked_ties shown_entry fullName Some
             (fun _ _ => eq_refl) _ _ i j e1 e2 Hij H1 H2 Htie).
  - intros i j e1 e2 Hij H1 H2 Htie.
    destruct (ranked_ties name_value_entry name (fun k => k)
                (fun _ _ => eq_refl) _ _ i j e1 e2 Hij H1 H2 Htie)
      as [k1 [k2 [p [q [-> [-> H]]]]]].
    exists p, q. exact H.
Qed.

(** ** Month keys *)

Lemma MonthFromTime_range (t : Z) :
  0 <= DateModel.MonthFromTime t <= 11.
Proof.
  unfold DateModel.MonthFromTime.
  repeat match goal with
         | |- context [if ?c then _ else _] => destruct c
         end; lia.
Qed.

Lemma getMonth_range (h : Host) (t : Z) : 0 <= getMonth h t <= 11.
Proof. apply MonthFromTime_range. Qed.

(** The year found is the one the standard defines: the largest [y]
    whose first day is not after the day of [t]. *)
Lemma YearFromTime_spec (t : Z) :
  DateModel.DayFromYear (DateModel.YearFromTime t) <= DateModel.Day t
  < DateModel.DayFromYear (DateModel.YearFromTime t + 1).
Proof.
  unfold DateModel.YearFromTime, DateModel.DayFromYear.
  generalize (DateModel.Day t). intros d. cbv zeta.
  repeat match goal with
         | |- context [if ?a <=? ?b then _ else _] =>
             destruct (Z.leb_spec a b)
         end; Z.div_mod_to_equations; lia.
Qed.

Lemma Number_toString_inj (a b : Z) :
  Number_toString a = Number_toString b -> a = b.
Proof.
  unfold Number_toString. intros H.
  assert (Hnn : forall z, Z.to_int z <> Pos Nil /\ Z.to_int z <> Neg Nil).
  { intros [|p|p]; simpl; split; try discriminate;
      intros [= E]; exact (Unsigned.to_uint_nonnil _ E). }
  apply DecimalZ.to_int_inj.
  pose proof (NilZero.isi (Z.to_int a) (proj1 (Hnn a)) (proj2 (Hnn a))) as Ha.
  pose proof (NilZero.isi (Z.to_int b) (proj1 (Hnn b)) (proj2 (Hnn b))) as Hb.
  rewrite H in Ha. congruence.
Qed.

Lemma string_forall_append (p : ascii -> bool) (a b : string) :
  string_forall p (String.append a b) = string_forall p a && string_forall p b.
Proof.
  induction a as [|c a IH]; simpl; [reflexivity|].
  rewrite IH. apply andb_assoc.
Qed.

Lemma Number_toString_chars (z : Z) :
  string_forall is_key_char (Number_toString z) = true.
Proof.
  assert (Hu : forall d, string_forall is_key_char (NilEmpty.string_of_uint d) = true).
  { induction d; simpl; try rewrite IHd; reflexivity. }
  assert (Hz : forall d, string_forall is_key_char (NilZero.string_of_uint d) = true).
  { intros d. destruct d; try apply Hu. reflexivity. }
  unfold Number_toString. destruct (Z.to_int z); simpl; rewrite Hz; reflexivity.
Qed.

Lemma month_cases (m : Z) :
  0 <= m <= 11 ->
  m = 0 \/ m = 1 \/ m = 2 \/ m = 3 \/ m = 4 \/ m = 5 \/ m = 6 \/ m = 7 \/
  m = 8 \/ m = 9 \/ m = 10 \/ m = 11.
Proof. lia. Qed.

Lemma padStart_month (m : Z) :
  0 <= m <= 11 ->
  padStart (Number_toString (m + 1)) 2 "0" = two_digits (m + 1).
Proof.
  intros Hm. apply month_cases in Hm.
  repeat (destruct Hm as [->|Hm]; [reflexivity|]). subst. reflexivity.
Qed.

Lemma monthKey_of_eq (y m : Z) :
  0 <= m <= 11 ->
  monthKey_of y m =
  String.append (Number_toString y) (String.append "-" (two_digits (m + 1))).
Proof.
  intros Hm. unfold monthKey_of. rewrite padStart_month by exact Hm.
  reflexivity.
Qed.

Lemma monthKey_of_chars (y m : Z) :
  0 <= m <= 11 -> string_forall is_key_char (monthKey_of y m) = true.
Proof.
  intros Hm. rewrite monthKey_of_eq by exact Hm.
  rewrite string_forall_append, Number_toString_chars.
  apply month_cases in Hm.
  repeat (destruct Hm as [->|Hm]; [reflexivity|]). subst. reflexivity.
Qed.

Lemma append_tail_inj (a b s t : string) :
  String.length s = String.length t ->
  String.append a s = String.append b t -> a = b /\ s = t.
Proof.
  intros Hlen. revert b. induction a as [|c a IH]; intros [|c' b] H; simpl in H.
  - auto.
  - exfalso. apply (f_equal String.length) in H. simpl in H.
    rewrite append_length in H. lia.
  - exfalso. apply (f_equal String.length) in H. simpl in H.
    rewrite append_length in H. lia.
  - injection H as -> H. destruct (IH b H) as [-> ->]. auto.
Qed.

Lemma two_digits_inj (m m' : Z) :
  0 <= m <= 11 -> 0 <= m' <= 11 ->
  forall a b,
    String.append a (String.append "-" (two_digits (m + 1))) =
    String.append b (String.append "-" (two_digits (m' + 1))) ->
    a = b /\ m = m'.
Proof.
  intros Hm Hm' a b H.
  apply append_tail_inj in H; [|reflexivity]. destruct H as [-> H].
  split; [reflexivity|].
  apply month_cases in Hm. apply month_cases in Hm'.
  repeat (destruct Hm as [->|Hm]); subst;
    repeat (destruct Hm' as [->|Hm']); subst;
    first [reflexivity | exfalso; vm_compute in H; congruence].
Qed.

Lemma monthKey_of_inj (y m y' m' : Z) :
  0 <= m <= 11 -> 0 <= m' <= 11 ->
  monthKey_of y m = monthKey_of y' m' -> y = y' /\ m = m'.
Proof.
  intros Hm Hm' H. rewrite !monthKey_of_eq in H by assumption.
  apply two_digits_inj in H; [|assumption|assumption].
  destruct H as [Hy ->]. apply Number_toString_inj in Hy. auto.
Qed.

(** ** The order of code units *)

Lemma string_compare_refl (a : string) : String.compare a a = Eq.
Proof.
  induction a as [|c a IH]; simpl; [reflexivity|].
  unfold Ascii.compare. rewrite N.compare_refl. exact IH.
Qed.

Lemma string_compare_le_trans (a b c : string) :
  String.compare a b <> Gt -> String.compare b c <> Gt ->
  String.compare a c <> Gt.
Proof.
  revert b c. induction a as [|x a IH]; intros [|y b] [|z c]; simpl;
    try congruence.
  unfold Ascii.compare.
  destruct (N.compare_spec (N_of_ascii x) (N_of_ascii y)) as [Exy|Lxy|Gxy];
    destruct (N.compare_spec (N_of_ascii y) (N_of_ascii z)) as [Eyz|Lyz|Gyz];
    destruct (N.compare_spec (N_of_ascii x) (N_of_ascii z)) as [Exz|Lxz|Gxz];
    try congruence; try lia.
  apply IH.
Qed.

Lemma compare_code_units_sign (a b : string) :
  (UTCHost.compare_code_units a b ?= 0) = String.compare a b.
Proof.
  unfold UTCHost.compare_code_units. destruct (String.compare a b); reflexivity.
Qed.

Lemma UTCHost_collates : collates_keys_by_code_unit UTCHost.host.
Proof. intros a b _ _. apply compare_code_units_sign. Qed.

Lemma leb0_of_sign (x y : Z) : (x ?= 0) = (y ?= 0) -> (x <=? 0) = (y <=? 0).
Proof. unfold Z.leb. intros ->. reflexivity. Qed.

Lemma StronglySorted_strict {A : Type} (R : A -> A -> Prop) (l : list A) :
  StronglySorted R l -> NoDup l ->
  StronglySorted (fun a b => R a b /\ a <> b) l.
Proof.
  induction 1 as [|x l Hs IH Hall]; intros Hnd; constructor;
    inversion Hnd as [|? ? Hx Hnd']; subst.
  - apply IH. exact Hnd'.
  - rewrite Forall_forall in *. intros y Hy. split; [auto|].
    intros ->. contradiction.
Qed.

Lemma StronglySorted_impl {A : Type} (R R' : A -> A -> Prop) (l : list A) :
  (forall a b, In a l -> In b l -> R a b -> R' a b) ->
  StronglySorted R l -> StronglySorted R' l.
Proof.
  intros Himp. induction 1 as [|x l Hs IH Hall]; constructor.
  - apply IH. intros a b Ha Hb. apply Himp; right; assumption.
  - rewrite Forall_forall in *. intros y Hy.
    apply Himp; [left; reflexivity|right; assumption|auto].
Qed.

(** Sorting entries with distinct names by the order of code units puts
    the names in strictly increasing order. *)
Lemma sort_by_code_units (l : list (Entry string)) :
  NoDup (map name l) ->
  StronglySorted name_lt (sort (by_name UTCHost.host) l).
Proof.
  intros Hnd.
  set (le := fun a b : Entry string =>
               String.compare (name a) (name b) <> Gt).
  assert (Hs : StronglySorted le (sort (by_name UTCHost.host) l)).
  { apply sort_sorted; unfold le, by_name; simpl.
    - intros x y H.
      pose proof (compare_code_units_sign (name x) (name y)) as E.
      destruct (String.compare (name x) (name y)); try discriminate.
      apply Z.compare_gt_iff in E. lia.
    - intros x y H.
      pose proof (compare_code_units_sign (name x) (name y)) as E.
      rewrite String.compare_antisym.
      destruct (String.compare (name x) (name y)); simpl; try discriminate.
      pose proof (proj1 (Z.compare_lt_iff _ _) E) as E'. lia.
    - intros x y z. apply string_compare_le_trans. }
  assert (Hnd' : NoDup (map name (sort (by_name UTCHost.host) l))).
  { eapply Permutation_NoDup; [|exact Hnd].
    apply Permutation_map. symmetry. apply sort_perm. }
  apply NoDup_map_inv in Hnd' as Hnd''.
  apply StronglySorted_strict in Hs; [|exact Hnd''].
  revert Hs. apply StronglySorted_impl.
  intros a b Ha Hb [Hle Hne]. unfold name_lt, le in *.
  destruct (String.compare (name a) (name b)) eqn:E; try congruence.
  exfalso. apply String.compare_eq_iff in E.
  clear - Hnd' Ha Hb Hne E.
  induction (sort (by_name UTCHost.host) l) as [|x s IH]; [contradiction|].
  simpl in Hnd'. inversion Hnd' as [|? ? Hx Hnd'']; subst.
  destruct Ha as [->|Ha], Hb as [->|Hb].
  - congruence.
  - apply Hx. rewrite E. apply in_map. exact Hb.
  - apply Hx. rewrite <- E. apply in_map. exact Ha.
  - auto.
Qed.

(** ** The months *)

Section TimeFacts.
Variable h : Host.

Lemma monthKey_year_month (r : record) :
  monthKey h r =
  match year_month h r with
  | Some (y, m) => Some (monthKey_of y m)
  | None => None
  end.
Proof.
  unfold monthKey, year_month.
  destruct (ToBoolean (get_prop r "date_rptd")); [|reflexivity].
  destruct (new_Date h (get_prop r "date_rptd")); reflexivity.
Qed.

Lemma year_month_range (r : record) (y m : Z) :
  year_month h r = Some (y, m) -> 0 <= m <= 11.
Proof.
  unfold year_month.
  destruct (ToBoolean (get_prop r "date_rptd")); [|discriminate].
  destruct (new_Date h (get_prop r "date_rptd")); [|discriminate].
  intros [= _ <-]. apply getMonth_range.
Qed.

Lemma observed_keys_In (data : list record) (k : string) :
  In k (observed_keys h data) <->
  exists r, In r data /\ monthKey h r = Some k.
Proof.
  unfold observed_keys. rewrite in_flat_map. split.
  - intros [r [Hr Hk]]. exists r. split; [exact Hr|].
    destruct (monthKey h r); simpl in Hk; [|contradiction].
    destruct Hk as [->|[]]. reflexivity.
  - intros [r [Hr Hk]]. exists r. split; [exact Hr|].
    rewrite Hk. left. reflexivity.
Qed.

Lemma observed_keys_chars (data : list record) (k : string) :
  In k (observed_keys h data) -> string_forall is_key_char k = true.
Proof.
  rewrite observed_keys_In. intros [r [_ Hk]].
  rewrite monthKey_year_month in Hk.
  destruct (year_month h r) as [[y m]|] eqn:E; [|discriminate].
  injection Hk as <-. apply monthKey_of_chars.
  eapply year_month_range. exact E.
Qed.

Lemma names_of_entries {L : Type} (m : list (L * Z)) :
  map name (map name_value_entry m) = map fst m.
Proof. rewrite map_map. apply map_ext. intros [k v]. reflexivity. Qed.

Lemma crimesOverTime_by_code_units (data : list record) :
  collates_keys_by_code_unit h ->
  sort (by_name h) (map name_value_entry (timeCount (loop h data))) =
  sort (by_name UTCHost.host)
       (map name_value_entry (timeCount (loop h data))).
Proof.
  intros Hlaw. apply sort_ext. intros x y Hx Hy.
  apply leb0_of_sign. unfold by_name. simpl.
  rewrite compare_code_units_sign. apply Hlaw.
  - apply (observed_keys_chars data), (keys_tally_In string_dec).
    rewrite <- loop_timeCount, <- names_of_entries. apply in_map. exact Hx.
  - apply (observed_keys_chars data), (keys_tally_In string_dec).
    rewrite <- loop_timeCount, <- names_of_entries. apply in_map. exact Hy.
Qed.
End TimeFacts.

(** C5: where the host's collation orders digits and hyphens as their
    code units do, [crimesOverTime] is in strictly increasing order of
    [name] under the comparison of strings, no [name] occurs twice, the
    names are exactly the distinct month keys of the records whose date
    is valid, however many there are, and two different year-months never
    share a key. *)
Theorem crimesOverTime_sorted (h : Host) (data : list record) :
  collates_keys_by_code_unit h ->
  exists res,
    chartData h data = Ok res /\
    StronglySorted name_lt (crimesOverTime res) /\
    NoDup (map name (crimesOverTime res)) /\
    Permutation (map name (crimesOverTime res))
                (nodup string_dec (observed_keys h data)) /\
    List.length (crimesOverTime res) =
      List.length (nodup string_dec (observed_keys h data)) /\
    (forall y m,
       (exists r, In r data /\ year_month h r = Some (y, m)) ->
       exists e, In e (crimesOverTime res) /\ name e = monthKey_of y m) /\
    (forall e, In e (crimesOverTime res) ->
       exists r y m,
         In r data /\ year_month h r = Some (y, m) /\ 0 <= m <= 11 /\
         name e = monthKey_of y m /\
         value e =
           Z.of_nat (count_occ string_dec (observed_keys h data) (name e))) /\
    (forall y m y' m',
       0 <= m <= 11 -> 0 <= m' <= 11 ->
       monthKey_of y m = monthKey_of y' m' -> y = y' /\ m = m').
Proof.
  intros Hlaw. eexists. split; [apply chartData_eq|].
  cbn [crimesOverTime]. rewrite crimesOverTime_by_code_units by exact Hlaw.
  set (m := timeCount (loop h data)).
  assert (Hm : m = tally_from string_dec [] (observed_keys h data))
    by apply loop_timeCount.
  assert (Hkeys : NoDup (map fst m))
    by (rewrite Hm; apply keys_tally_NoDup).
  assert (Hperm : Permutation
                    (map name (sort (by_name UTCHost.host)
                                    (map name_value_entry m)))
                    (nodup string_dec (observed_keys h data))).
  { rewrite (Permutation_map name (sort_perm _ _)), names_of_entries.
    apply NoDup_Permutation; [exact Hkeys|apply NoDup_nodup|].
    intros k. rewrite Hm, keys_tally_In, nodup_In. tauto. }
  split; [apply sort_by_code_units; rewrite names_of_entries; exact Hkeys|].
  split; [eapply Permutation_NoDup;
          [symmetry; exact Hperm|apply NoDup_nodup]|].
  split; [exact Hperm|].
  split; [rewrite <- (Permutation_length Hperm), length_map; reflexivity|].
  split; [|split].
  - intros y mo [r [Hr Hym]].
    assert (Hin : In (monthKey_of y mo)
                     (map name (sort (by_name UTCHost.host)
                                     (map name_value_entry m)))).
    { apply (Permutation_in _ (Permutation_sym Hperm)).
      apply nodup_In, observed_keys_In. exists r. split; [exact Hr|].
      rewrite monthKey_year_month, Hym. reflexivity. }
    apply in_map_iff in Hin. destruct Hin as [e [He Hin]]. eauto.
  - intros e He. apply sort_In, in_map_iff in He.
    destruct He as [[k v] [<- Hin]]. simpl.
    apply (proj2 (get_In string_dec k v _ Hkeys)) in Hin.
    rewrite Hm in Hin. apply get_tally_pos in Hin. destruct Hin as [-> Hk].
    apply observed_keys_In in Hk. destruct Hk as [r [Hr Hk]].
    rewrite monthKey_year_month in Hk.
    destruct (year_month h r) as [[y mo]|] eqn:E; [|discriminate].
    injection Hk as <-. exists r, y, mo.
    repeat split; try assumption; eapply year_month_range; exact E.
  - intros y mo y' mo'. apply monthKey_of_inj.
Qed.

Lemma Number_toString_four_digits (y : Z) :
  1000 <= y <= 9999 -> String.length (Number_toString y) = 4%nat.
Proof.
  intros Hy.
  assert (H : forallb (fun n => Nat.eqb (String.length
                                  (Number_toString (1000 + Z.of_nat n))) 4)
                      (seq 0 (Z.to_nat 9000)) = true) by (vm_compute; reflexivity).
  rewrite forallb_forall in H. specialize (H (Z.to_nat (y - 1000))).
  replace (1000 + Z.of_nat (Z.to_nat (y - 1000))) with y in H by lia.
  apply Nat.eqb_eq, H, in_seq. lia.
Qed.

(** C6, as the code has it: a record adds one to [processed] and to the
    counts of its category and of its area whatever its date is.  When
    its date field is truthy (for a text: present and not empty) and
    gives a valid date, the record adds one to the count of the key made
    of the year written in decimal without padding (four digits, so
    seven characters [YYYY-MM], exactly for the years 1000 to 9999), a
    hyphen and the month from 1 to 12 in two digits, and to no other
    key; when the field is missing, [null], empty or otherwise falsy, or
    gives no valid date, [timeCount] stays as it was. *)
Theorem record_month_bucket (h : Host) (st : LoopState) (r : record) :
  let date := get_prop r "date_rptd" in
  processed (step h st r) = processed st + 1 /\
  (forall k,
     count_of (Map_get_val (typeCount (step h st r)) k) =
     count_of (Map_get_val (typeCount st) k) +
     (if val_eq_dec (canon_val k) (type_of r) then 1 else 0)) /\
  (forall k,
     count_of (Map_get_val (areaCount (step h st r)) k) =
     count_of (Map_get_val (areaCount st) k) +
     (if val_eq_dec (canon_val k) (area_of r) then 1 else 0)) /\
  (forall t,
     ToBoolean date = true -> new_Date h date = Some t ->
     let y := getFullYear h t in
     let m := getMonth h t + 1 in
     let key :=
       String.append (Number_toString y) (String.append "-" (two_digits m)) in
     1 <= m <= 12 /\
     monthKey h r = Some key /\
     (1000 <= y <= 9999 ->
      String.length (Number_toString y) = 4%nat /\
      String.length key = 7%nat) /\
     forall k,
       count_of (Map_get_str (timeCount (step h st r)) k) =
       count_of (Map_get_str (timeCount st) k) +
       (if string_dec k key then 1 else 0)) /\
  (ToBoolean date = false \/ new_Date h date = None ->
   monthKey h r = None /\ timeCount (step h st r) = timeCount st) /\
  (date = VUndefined \/ date = VNull \/ date = VStr "" ->
   ToBoolean date = false) /\
  (forall s, date = VStr s -> s <> "" -> ToBoolean date = true).
Proof.
  cbv zeta.
  split; [reflexivity|].
  split; [apply step_type_count|]. split; [apply step_area_count|].
  split; [|split; [|split]].
  - intros t Htruthy Ht.
    pose proof (getMonth_range h t) as Hm.
    assert (Hkey : monthKey h r =
                   Some (String.append (Number_toString (getFullYear h t))
                           (String.append "-"
                              (two_digits (getMonth h t + 1))))).
    { unfold monthKey. rewrite Htruthy, Ht, monthKey_of_eq by exact Hm.
      reflexivity. }
    split; [lia|]. split; [exact Hkey|]. split.
    + intros Hy. pose proof (Number_toString_four_digits _ Hy) as H4.
      split; [exact H4|]. rewrite !append_length, H4. reflexivity.
    + intros k. rewrite step_timeCount, Hkey. apply tally_step_count_str.
  - intros Hnone.
    assert (Hkey : monthKey h r = None).
    { unfold monthKey. destruct Hnone as [Hf|Hn].
      - rewrite Hf. reflexivity.
      - rewrite Hn. destruct (ToBoolean (get_prop r "date_rptd")); reflexivity. }
    split; [exact Hkey|]. rewrite step_timeCount, Hkey. reflexivity.
  - intros [-> |[-> | ->]]; reflexivity.
  - intros s -> Hs. apply ToBoolean_text. exact Hs.
Qed.

(** C6, as the claim has it, fails on a date in the year 99: the field is
    present and is a calendar date, yet the key under which the record
    is counted is ["99-06"], five characters and not of the form
    [YYYY-MM]. *)
Lemma month_key_year_not_padded :
  get_prop [("date_rptd", VStr "0099-06-15")] "date_rptd" =
    VStr "0099-06-15" /\
  new_Date UTCHost.host (VStr "0099-06-15") = Some (-59028739200000) /\
  getFullYear UTCHost.host (-59028739200000) = 99 /\
  getMonth UTCHost.host (-59028739200000) = 5 /\
  monthKey UTCHost.host [("date_rptd", VStr "0099-06-15")] = Some "99-06" /\
  String.length "99-06" = 5%nat /\
  "99-06" <> "0099-06" /\
  exists res,
    chartData UTCHost.host [[("date_rptd", VStr "0099-06-15")]] = Ok res /\
    crimesOverTime res =
      [{| name := "99-06"; fullName := None; value := 1 |}].
Proof.
  repeat split; try (vm_compute; reflexivity); try discriminate.
  eexists. split; vm_compute; reflexivity.
Qed.

(** A date field that is [false] or the number 0 is skipped by the guard
    [if (record.date_rptd)], although [new Date] of it is a valid date. *)
Remark falsy_date_skipped (h : Host) :
  monthKey h [("date_rptd", VBool false)] = None /\
  new_Date h (VBool false) = Some 0 /\
  monthKey h [("date_rptd", VNum (S754_zero false))] = None /\
  new_Date h (VNum (S754_zero false)) = Some 0.
Proof. repeat split. Qed.

(** ** The definitions at work *)

Lemma UTCHost_rejects_empty : parse_rejects_empty UTCHost.host.
Proof. reflexivity. Qed.

Lemma record_month_bucket_witness :
  monthKey UTCHost.host Samples.theft = Some "2021-03" /\
  String.length "2021-03" = 7%nat /\
  count_of (Map_get_str (timeCount (step UTCHost.host init Samples.theft))
                        "2021-03") = 1 /\
  timeCount (step UTCHost.host init Samples.bare) = [].
Proof.
  pose proof (record_month_bucket UTCHost.host init Samples.theft) as H.
  cbv zeta in H. destruct H as [_ [_ [_ [Hdate _]]]].
  specialize (Hdate 1615766400000 eq_refl eq_refl).
  destruct Hdate as [_ [Hkey [Hlen Hcount]]].
  pose proof (record_month_bucket UTCHost.host init Samples.bare) as H'.
  cbv zeta in H'. destruct H' as [_ [_ [_ [_ [Hnone _]]]]].
  split; [exact Hkey|].
  split; [refine (proj2 (Hlen _)); vm_compute; split; discriminate|].
  split; [rewrite Hcount; reflexivity|].
  apply Hnone. right. reflexivity.
Defined.

Lemma crimesOverTime_sorted_witness :
  collates_keys_by_code_unit UTCHost.host /\
  exists res,
    chartData UTCHost.host
      [Samples.theft; Samples.bare; Samples.burglary; Samples.theft] = Ok res /\
    map name (crimesOverTime res) = ["2020-11"; "2021-03"] /\
    StronglySorted name_lt (crimesOverTime res).
Proof.
  split; [exact UTCHost_collates|].
  destruct (crimesOverTime_sorted UTCHost.host
              [Samples.theft; Samples.bare; Samples.burglary; Samples.theft]
              UTCHost_collates) as [res [Hres [Hsorted _]]].
  exists res. split; [exact Hres|]. split; [|exact Hsorted].
  vm_compute in Hres. injection Hres as <-. reflexivity.
Defined.

Lemma ranked_views_top15_witness :
  exists res,
    chartData UTCHost.host Samples.sixteen_labels = Ok res /\
    List.length (crimesByType res) = 15%nat /\
    List.length (crimesByArea res) = 15%nat /\
    map value (crimesByType res) = [2; 1; 1; 1; 1; 1; 1; 1; 1; 1; 1; 1; 1; 1; 1] /\
    ~ In (Some (VStr "15")) (map fullName (crimesByType res)).
Proof.
  destruct (ranked_views_top15 UTCHost.host Samples.sixteen_labels)
    as [res [Hres [_ [_ [_ [_ [HlenT [HlenA _]]]]]]]].
  exists res. split; [exact Hres|].
  split; [rewrite HlenT; reflexivity|]. split; [rewrite HlenA; reflexivity|].
  vm_compute in Hres. injection Hres as <-.
  split; [reflexivity|].
  simpl. intros H. repeat (destruct H as [H|H]; [discriminate|]). exact H.
Defined.

Lemma ties_in_first_occurrence_order_witness :
  exists res,
    chartData UTCHost.host [Samples.theft; Samples.burglary] = Ok res /\
    map fullName (crimesByType res) =
      [Some (VStr "THEFT"); Some (VStr "BURGLARY")] /\
    exists p q,
      first_index val_eq_dec (VStr "HOLLYWOOD")
        (map area_of [Samples.theft; Samples.burglary]) = Some p /\
      first_index val_eq_dec (VStr "CENTRAL")
        (map area_of [Samples.theft; Samples.burglary]) = Some q /\
      (p < q)%nat.
Proof.
  destruct (ties_in_first_occurrence_order UTCHost.host
              [Samples.theft; Samples.burglary]) as [res [Hres [_ Harea]]].
  exists res. split; [exact Hres|].
  vm_compute in Hres. injection Hres as <-.
  split; [reflexivity|].
  exact (Harea 0%nat 1%nat _ _ (Nat.lt_0_1) eq_refl eq_refl eq_refl).
Defined.

(** The empty sequence. *)
Example chartData_empty :
  chartData UTCHost.host [] =
  Ok {| crimesByType := []; crimesByArea := []; crimesOverTime := [];
        totalCount := 0 |}.
Proof. reflexivity. Qed.

(** One complete record. *)
Example chartData_single :
  chartData UTCHost.host [Samples.theft] =
  Ok {| crimesByType :=
          [{| name := VStr "THEFT"; fullName := Some (VStr "THEFT");
              value := 1 |}];
        crimesByArea :=
          [{| name := VStr "HOLLYWOOD"; fullName := None; value := 1 |}];
        crimesOverTime :=
          [{| name := "2021-03"; fullName := None; value := 1 |}];
        totalCount := 1 |}.
Proof. vm_compute. reflexivity. Qed.

(** A record with nothing but a date that is none. *)
Example chartData_bare :
  chartData UTCHost.host [Samples.bare] =
  Ok {| crimesByType :=
          [{| name := VStr "Unknown"; fullName := Some (VStr "Unknown");
              value := 1 |}];
        crimesByArea :=
          [{| name := VStr "Unknown"; fullName := None; value := 1 |}];
        crimesOverTime := [];
        totalCount := 1 |}.
Proof. vm_compute. reflexivity. Qed.

(** The month is the month of local time: a date-only text is midnight
    UTC, which west of UTC is still the evening before. *)
Example month_is_local :
  monthKey UTCHost.host [("date_rptd", VStr "2021-03-01")] = Some "2021-03" /\
  monthKey UTCHost.west [("date_rptd", VStr "2021-03-01")] = Some "2021-02".
Proof. split; vm_compute; reflexivity. Qed.

(* ================================================================== *)
(** * Part III: further properties of the component *)
(* ================================================================== *)

(** ** Sums of counts *)

Section SumFacts.
Context {K : Type}.
Variable K_eq_dec : forall a b : K, {a = b} + {a <> b}.

Lemma sum_counts_set (k : K) (v : Z) (m : JMap K) :
  sum_counts (assoc_set K_eq_dec k v m) =
  sum_counts m - count_of (assoc_get K_eq_dec k m) + v.
Proof.
  unfold sum_counts. induction m as [|[k0 v0] m IH]; simpl; [lia|].
  destruct (K_eq_dec k k0); simpl; [lia|]. rewrite IH. lia.
Qed.

Lemma sum_counts_tally (l : list K) :
  sum_counts (tally_from K_eq_dec [] l) = Z.of_nat (List.length l).
Proof.
  induction l as [|x l IH] using rev_ind; [reflexivity|].
  rewrite tally_snoc. unfold tally_step.
  rewrite sum_counts_set, or0_count, IH, length_app. simpl. lia.
Qed.
End SumFacts.

Lemma total_app {L : Type} (l1 l2 : list (Entry L)) :
  total (l1 ++ l2) = total l1 + total l2.
Proof.
  unfold total. induction l1 as [|e l1 IH]; simpl; [reflexivity|].
  rewrite IH. lia.
Qed.

Lemma total_perm {L : Type} (l1 l2 : list (Entry L)) :
  Permutation l1 l2 -> total l1 = total l2.
Proof.
  unfold total. induction 1; simpl; lia.
Qed.

Lemma total_nonneg {L : Type} (l : list (Entry L)) :
  (forall e, In e l -> 0 <= value e) -> 0 <= total l.
Proof.
  unfold total. induction l as [|e l IH]; simpl; intros H; [lia|].
  specialize (H e (or_introl eq_refl)) as He.
  assert (0 <= fold_right Z.add 0 (map value l)) by (apply IH; auto). lia.
Qed.

Lemma total_firstn_le {L : Type} (n : nat) (l : list (Entry L)) :
  (forall e, In e l -> 0 <= value e) -> total (firstn n l) <= total l.
Proof.
  intros H. rewrite <- (firstn_skipn n l) at 2. rewrite total_app.
  assert (0 <= total (skipn n l)); [|lia].
  apply total_nonneg. intros e He. apply H.
  rewrite <- (firstn_skipn n l). apply in_app_iff. tauto.
Qed.

Lemma total_map_entries {L : Type} (mk : L * Z -> Entry L) (m : list (L * Z)) :
  (forall k v, value (mk (k, v)) = v) -> total (map mk m) = sum_counts m.
Proof.
  intros Hv. unfold total, sum_counts.
  induction m as [|[k v] m IH]; simpl; [reflexivity|]. rewrite Hv, IH.
  reflexivity.
Qed.

Lemma occurrences_pos (k : val) (l : list val) :
  In k l -> 1 <= occurrences k l.
Proof.
  intros H. apply (count_occ_In val_eq_dec) in H. unfold occurrences. lia.
Qed.

(** A view ranked by count, again: its sum and what it keeps. *)
Section RankedSums.
Variable mk : val * Z -> Entry val.
Hypothesis value_mk : forall k v, value (mk (k, v)) = v.
Variable labels : list val.
Variable n : nat.

Let ranked : list (Entry val) :=
  sort by_value_desc (map mk (tally_from val_eq_dec [] labels)).

Lemma ranked_total_all : total ranked = Z.of_nat (List.length labels).
Proof.
  unfold ranked. rewrite (total_perm _ _ (sort_perm _ _)).
  rewrite total_map_entries by exact value_mk. apply sum_counts_tally.
Qed.

Lemma ranked_all_positive (e : Entry val) : In e ranked -> 1 <= value e.
Proof.
  intros He. apply ranked_all_In in He. destruct He as [k [Hk ->]].
  rewrite value_mk. apply occurrences_pos. exact Hk.
Qed.

Lemma ranked_positive (e : Entry val) :
  In e (firstn n ranked) -> 1 <= value e.
Proof. intros He. apply ranked_all_positive. eapply firstn_incl. exact He. Qed.

Lemma ranked_total_le :
  total (firstn n ranked) <= Z.of_nat (List.length labels).
Proof.
  rewrite <- ranked_total_all. apply total_firstn_le.
  intros e He. apply ranked_all_positive in He. lia.
Qed.

Lemma ranked_all_length :
  List.length ranked = List.length (nodup val_eq_dec labels).
Proof.
  unfold ranked. rewrite (Permutation_length (sort_perm _ _)), length_map.
  rewrite <- (length_map fst).
  apply Permutation_length, NoDup_Permutation.
  - apply keys_tally_NoDup.
  - apply NoDup_nodup.
  - intros k. rewrite keys_tally_In, nodup_In. tauto.
Qed.

Lemma ranked_uncut :
  (List.length (nodup val_eq_dec labels) <= n)%nat ->
  firstn n ranked = ranked.
Proof.
  intros H. apply firstn_all2. rewrite ranked_all_length. exact H.
Qed.
End RankedSums.

(** X1: the counts of [crimesByType], and those of [crimesByArea], add
    up to at most [totalCount]; they add up to exactly [totalCount] when
    the records have at most 15 distinct labels, in which case every
    record's label has its entry in the view. *)
Theorem view_totals (h : Host) (data : list record) :
  exists res,
    chartData h data = Ok res /\
    total (crimesByType res) <= totalCount res /\
    total (crimesByArea res) <= totalCount res /\
    ((List.length (nodup val_eq_dec (map type_of data)) <= 15)%nat ->
     total (crimesByType res) = totalCount res /\
     forall r, In r data ->
       exists e, In e (crimesByType res) /\ fullName e = Some (type_of r)) /\
    ((List.length (nodup val_eq_dec (map area_of data)) <= 15)%nat ->
     total (crimesByArea res) = totalCount res /\
     forall r, In r data ->
       exists e, In e (crimesByArea res) /\ name e = area_of r).
Proof.
  eexists. split; [apply chartData_eq|].
  cbn [crimesByType crimesByArea totalCount].
  rewrite all_types_ranked, all_areas_ranked.
  assert (HT : forall k v, value (shown_entry (k, v)) = v) by reflexivity.
  assert (HA : forall k v, value (@name_value_entry val (k, v)) = v)
    by reflexivity.
  pose proof (ranked_total_le shown_entry HT (map type_of data) 15) as H1.
  pose proof (ranked_total_le name_value_entry HA (map area_of data) 15) as H2.
  rewrite length_map in H1, H2.
  split; [exact H1|]. split; [exact H2|]. split.
  - intros Hle. rewrite (ranked_uncut shown_entry _ _ Hle).
    split.
    + rewrite (ranked_total_all shown_entry HT), length_map. reflexivity.
    + intros r Hr. eexists. split.
      * apply ranked_all_In. exists (type_of r). split; [|reflexivity].
        apply in_map. exact Hr.
      * reflexivity.
  - intros Hle. rewrite (ranked_uncut name_value_entry _ _ Hle).
    split.
    + rewrite (ranked_total_all name_value_entry HA), length_map. reflexivity.
    + intros r Hr. eexists. split.
      * apply ranked_all_In. exists (area_of r). split; [|reflexivity].
        apply in_map. exact Hr.
      * reflexivity.
Qed.

Lemma view_totals_witness :
  exists res,
    chartData UTCHost.host
      [Samples.theft; Samples.burglary; Samples.theft] = Ok res /\
    total (crimesByType res) = 3 /\ total (crimesByArea res) = 3.
Proof.
  destruct (view_totals UTCHost.host
              [Samples.theft; Samples.burglary; Samples.theft])
    as [res [Hres [_ [_ [HT HA]]]]].
  exists res. split; [exact Hres|].
  destruct HT as [HT _]; [vm_compute; lia|].
  destruct HA as [HA _]; [vm_compute; lia|].
  rewrite HT, HA. vm_compute in Hres. injection Hres as <-. split; reflexivity.
Defined.

Lemma length_observed_keys (h : Host) (data : list record) :
  List.length (observed_keys h data) =
  List.length (filter (has_month h) data).
Proof.
  unfold observed_keys, has_month.
  induction data as [|r data IH]; simpl; [reflexivity|].
  rewrite length_app, IH. destruct (monthKey h r); reflexivity.
Qed.

Lemma filter_length_le {A : Type} (f : A -> bool) (l : list A) :
  (List.length (filter f l) <= List.length l)%nat.
Proof.
  induction l as [|x l IH]; simpl; [lia|]. destruct (f x); simpl; lia.
Qed.

(** X2: the counts of [crimesOverTime] add up to the number of records
    that have a valid date, so [totalCount] less that sum is the number
    of records left out of the time series. *)
Theorem time_series_total (h : Host) (data : list record) :
  exists res,
    chartData h data = Ok res /\
    total (crimesOverTime res) =
      Z.of_nat (List.length (filter (has_month h) data)) /\
    totalCount res - total (crimesOverTime res) =
      Z.of_nat (List.length (filter (fun r => negb (has_month h r)) data)) /\
    total (crimesOverTime res) <= totalCount res.
Proof.
  eexists. split; [apply chartData_eq|].
  cbn [crimesOverTime totalCount].
  assert (Hsum : total (sort (by_name h)
                          (map name_value_entry (timeCount (loop h data)))) =
                 Z.of_nat (List.length (filter (has_month h) data))).
  { rewrite (total_perm _ _ (sort_perm _ _)).
    rewrite total_map_entries by reflexivity.
    rewrite loop_timeCount, sum_counts_tally, length_observed_keys.
    reflexivity. }
  rewrite Hsum.
  pose proof (filter_length_le (has_month h) data) as Hle.
  assert (Hsplit : (List.length (filter (has_month h) data) +
                    List.length (filter (fun r => negb (has_month h r)) data) =
                    List.length data)%nat).
  { clear. induction data as [|r data IH]; simpl; [reflexivity|].
    destruct (has_month h r); simpl; lia. }
  repeat split; lia.
Qed.

(** X3: every entry of the three views has a count of at least one. *)
Theorem counts_positive (h : Host) (data : list record) :
  exists res,
    chartData h data = Ok res /\
    (forall e, In e (crimesByType res) -> 1 <= value e) /\
    (forall e, In e (crimesByArea res) -> 1 <= value e) /\
    (forall e, In e (crimesOverTime res) -> 1 <= value e).
Proof.
  eexists. split; [apply chartData_eq|].
  cbn [crimesByType crimesByArea crimesOverTime].
  rewrite all_types_ranked, all_areas_ranked.
  split; [|split].
  - intros e. apply ranked_positive. reflexivity.
  - intros e. apply ranked_positive. reflexivity.
  - intros e He. apply sort_In, in_map_iff in He.
    destruct He as [[k v] [<- Hin]]. simpl.
    rewrite loop_timeCount in Hin.
    apply (proj2 (get_In string_dec k v _ (keys_tally_NoDup string_dec _)))
      in Hin.
    apply get_tally_pos in Hin. destruct Hin as [-> Hk].
    apply (count_occ_In string_dec) in Hk. lia.
Qed.

Lemma counts_positive_witness :
  exists res,
    chartData UTCHost.host [Samples.theft; Samples.bare] = Ok res /\
    map value (crimesOverTime res) = [1].
Proof.
  destruct (counts_positive UTCHost.host [Samples.theft; Samples.bare])
    as [res [Hres _]].
  exists res. split; [exact Hres|].
  vm_compute in Hres. injection Hres as <-. reflexivity.
Defined.

(** ** The width of a shown label *)

Lemma shown_width (k : val) (s : string) :
  shown k = VStr s -> (String.length s <= 40)%nat.
Proof.
  destruct k as [| | b | x | s0]; simpl; try discriminate.
  unfold js_length.
  destruct (Z.ltb_spec 40 (Z.of_nat (String.length s0))) as [Hlt|Hle].
  - intros [= <-]. unfold js_substring.
    rewrite (Nat.min_l 0), (Nat.min_l 37) by lia. simpl Nat.min. simpl Nat.max.
    rewrite append_length, substring_length by lia. simpl. lia.
  - intros [= <-]. lia.
Qed.

(** X4: a [name] of [crimesByType] that is a string has at most 40
    characters, and it is the counted label itself, or ends in the three
    dots after the label's first 37 characters. *)
Theorem crimesByType_name_width (h : Host) (data : list record) :
  exists res,
    chartData h data = Ok res /\
    forall e s, In e (crimesByType res) -> name e = VStr s ->
      (String.length s <= 40)%nat /\
      (fullName e = Some (VStr s) \/
       exists full,
         fullName e = Some (VStr full) /\ (40 < String.length full)%nat /\
         s = String.append (String.substring 0 37 full) "..." /\
         String.length s = 40%nat).
Proof.
  eexists. split; [apply chartData_eq|]. cbn [crimesByType].
  intros e s He Hs. apply crimesByType_In in He.
  destruct He as [k [Hfull [Hname _]]]. rewrite Hname in Hs.
  split; [eapply shown_width; exact Hs|].
  rewrite Hfull. destruct k as [| | b | x | s0]; simpl in Hs; try discriminate.
  destruct (le_lt_dec (String.length s0) 40) as [Hle|Hlt].
  - left. rewrite <- Hs. fold (shown (VStr s0)). rewrite shown_short by exact Hle.
    reflexivity.
  - right. exists s0. fold (shown (VStr s0)) in Hs.
    rewrite shown_long in Hs by exact Hlt. injection Hs as <-.
    repeat split; try assumption.
    rewrite append_length, substring_length by lia. reflexivity.
Qed.

Lemma crimesByType_name_width_witness :
  exists res,
    chartData UTCHost.host [Samples.long_names] = Ok res /\
    (String.length "BURGLARY FROM VEHICLE, ATTEMPTED - NI..." <= 40)%nat.
Proof.
  destruct (crimesByType_name_width UTCHost.host [Samples.long_names])
    as [res [Hres Hall]].
  exists res. split; [exact Hres|].
  refine (proj1 (Hall {| name := VStr "BURGLARY FROM VEHICLE, ATTEMPTED - NI...";
                          fullName := Some (VStr Samples.long_label);
                          value := 1 |} _ _ eq_refl)).
  vm_compute in Hres. injection Hres as <-. left. reflexivity.
Defined.

(** ** The order of the records *)

Lemma tally_In {K : Type} (K_eq_dec : forall a b : K, {a = b} + {a <> b})
    (l : list K) (k : K) (v : Z) :
  In (k, v) (tally_from K_eq_dec [] l) <->
  In k l /\ v = Z.of_nat (count_occ K_eq_dec l k).
Proof.
  rewrite <- (get_In K_eq_dec k v _ (keys_tally_NoDup K_eq_dec l)). split.
  - intros H. apply get_tally_pos in H. tauto.
  - intros [Hk ->]. apply (keys_tally_In K_eq_dec) in Hk.
    destruct (assoc_get K_eq_dec k (tally_from K_eq_dec [] l)) as [v|] eqn:E.
    + apply get_tally_pos in E. destruct E as [-> _]. reflexivity.
    + apply get_None in E. contradiction.
Qed.

Lemma tally_perm {K : Type} (K_eq_dec : forall a b : K, {a = b} + {a <> b})
    (l l' : list K) :
  Permutation l l' ->
  Permutation (tally_from K_eq_dec [] l) (tally_from K_eq_dec [] l').
Proof.
  intros Hp. apply NoDup_Permutation.
  - eapply NoDup_map_inv. apply keys_tally_NoDup.
  - eapply NoDup_map_inv. apply keys_tally_NoDup.
  - intros [k v]. rewrite !tally_In.
    rewrite (Permutation_count_occ K_eq_dec l l') in Hp. rewrite (Hp k).
    rewrite !(count_occ_In K_eq_dec), (Hp k). tauto.
Qed.

Lemma StronglySorted_perm_eq {A : Type} (R : A -> A -> Prop) (l1 l2 : list A) :
  (forall a b, R a b -> R b a -> a = b) ->
  StronglySorted R l1 -> StronglySorted R l2 -> Permutation l1 l2 -> l1 = l2.
Proof.
  intros Hanti H1. revert l2.
  induction H1 as [|x l1 Hs1 IH Hall1]; intros l2 H2 Hp.
  - apply Permutation_nil in Hp. congruence.
  - destruct H2 as [|y l2 Hs2 Hall2].
    + apply Permutation_sym, Permutation_nil in Hp. discriminate.
    + assert (Hxy : x = y).
      { rewrite Forall_forall in Hall1, Hall2.
        assert (Hx : In x (y :: l2))
          by (apply (Permutation_in _ Hp); left; reflexivity).
        assert (Hy : In y (x :: l1))
          by (apply (Permutation_in _ (Permutation_sym Hp)); left; reflexivity).
        destruct Hx as [->|Hx]; [reflexivity|].
        destruct Hy as [->|Hy]; [reflexivity|]. auto. }
      subst y. f_equal. apply IH; [exact Hs2|].
      eapply Permutation_cons_inv. exact Hp.
Qed.

Lemma StronglySorted_map {A B : Type} (f : A -> B) (R : B -> B -> Prop)
    (l : list A) :
  StronglySorted (fun a b => R (f a) (f b)) l -> StronglySorted R (map f l).
Proof.
  induction 1 as [|x l Hs IH Hall]; simpl; constructor; [exact IH|].
  rewrite Forall_forall in *. intros y Hy. apply in_map_iff in Hy.
  destruct Hy as [a [<- Ha]]. auto.
Qed.

(** The counts of a ranked view do not depend on the order of the
    labels. *)
Lemma ranked_values_perm (mk : val * Z -> Entry val) (l l' : list val) (n : nat) :
  Permutation l l' ->
  map value (firstn n (sort by_value_desc
                         (map mk (tally_from val_eq_dec [] l)))) =
  map value (firstn n (sort by_value_desc
                         (map mk (tally_from val_eq_dec [] l')))).
Proof.
  intros Hp. rewrite <- !firstn_map. f_equal.
  apply (StronglySorted_perm_eq (fun a b => b <= a)).
  - intros a b. lia.
  - apply StronglySorted_map. apply by_value_desc_sorted.
  - apply StronglySorted_map. apply by_value_desc_sorted.
  - apply Permutation_map.
    rewrite (sort_perm by_value_desc _), (sort_perm by_value_desc _).
    apply Permutation_map, tally_perm. exact Hp.
Qed.

(** X5: the heights of the bars do not depend on the order of the
    records: for two sequences with the same records in any order,
    [totalCount] and the lists of the values of [crimesByType] and of
    [crimesByArea] are the same (only which of several labels with equal
    counts comes first, or is kept, can differ). *)
Theorem bar_values_order_free (h : Host) (data data' : list record) :
  Permutation data data' ->
  exists res res',
    chartData h data = Ok res /\ chartData h data' = Ok res' /\
    totalCount res = totalCount res' /\
    map value (crimesByType res) = map value (crimesByType res') /\
    map value (crimesByArea res) = map value (crimesByArea res').
Proof.
  intros Hp. eexists. eexists.
  split; [apply chartData_eq|]. split; [apply chartData_eq|].
  cbn [crimesByType crimesByArea totalCount].
  rewrite !all_types_ranked, !all_areas_ranked.
  split; [rewrite (Permutation_length Hp); reflexivity|].
  split; apply ranked_values_perm, Permutation_map; exact Hp.
Qed.

Lemma bar_values_order_free_witness :
  exists res res',
    chartData UTCHost.host [Samples.theft; Samples.burglary] = Ok res /\
    chartData UTCHost.host [Samples.burglary; Samples.theft] = Ok res' /\
    map value (crimesByType res) = map value (crimesByType res') /\
    map fullName (crimesByType res) <> map fullName (crimesByType res').
Proof.
  destruct (bar_values_order_free UTCHost.host
              [Samples.theft; Samples.burglary]
              [Samples.burglary; Samples.theft] (perm_swap _ _ []))
    as [res [res' [Hres [Hres' [_ [Hv _]]]]]].
  exists res, res'. split; [exact Hres|]. split; [exact Hres'|].
  split; [exact Hv|].
  vm_compute in Hres, Hres'. injection Hres as <-. injection Hres' as <-.
  discriminate.
Defined.

Lemma name_lt_asym (a b : Entry string) : name_lt a b -> name_lt b a -> a = b.
Proof.
  unfold name_lt. intros H1 H2. rewrite String.compare_antisym, H1 in H2.
  discriminate.
Qed.

(** X6: where the host's collation orders digits and hyphens as their
    code units do, the time series does not depend on the order of the
    records at all: the same records in any order give the same
    [crimesOverTime]. *)
Theorem time_series_order_free (h : Host) (data data' : list record) :
  collates_keys_by_code_unit h ->
  Permutation data data' ->
  exists res res',
    chartData h data = Ok res /\ chartData h data' = Ok res' /\
    crimesOverTime res = crimesOverTime res'.
Proof.
  intros Hlaw Hp. eexists. eexists.
  split; [apply chartData_eq|]. split; [apply chartData_eq|].
  cbn [crimesOverTime].
  rewrite !crimesOverTime_by_code_units by exact Hlaw.
  rewrite !loop_timeCount.
  apply (StronglySorted_perm_eq name_lt); [exact name_lt_asym| | |].
  - apply sort_by_code_units. rewrite names_of_entries.
    apply keys_tally_NoDup.
  - apply sort_by_code_units. rewrite names_of_entries.
    apply keys_tally_NoDup.
  - rewrite (sort_perm (by_name UTCHost.host) _),
            (sort_perm (by_name UTCHost.host) _).
    apply Permutation_map, tally_perm.
    unfold observed_keys. apply Permutation_flat_map. exact Hp.
Qed.

Lemma time_series_order_free_witness :
  exists res res',
    chartData UTCHost.host [Samples.theft; Samples.burglary] = Ok res /\
    chartData UTCHost.host [Samples.burglary; Samples.theft] = Ok res' /\
    crimesOverTime res = crimesOverTime res' /\
    map name (crimesOverTime res) = ["2020-11"; "2021-03"].
Proof.
  destruct (time_series_order_free UTCHost.host
              [Samples.theft; Samples.burglary]
              [Samples.burglary; Samples.theft]
              UTCHost_collates (perm_swap _ _ []))
    as [res [res' [Hres [Hres' Heq]]]].
  exists res, res'. split; [exact Hres|]. split; [exact Hres'|].
  split; [exact Heq|].
  vm_compute in Hres. injection Hres as <-. reflexivity.
Defined.

(** ** The label ["Unknown"] and the first entry *)

Lemma count_occ_map_filter {A : Type} (f : A -> val) (k : val) (l : list A) :
  count_occ val_eq_dec (map f l) k =
  List.length (filter (fun x => if val_eq_dec (f x) k then true else false) l).
Proof.
  induction l as [|x l IH]; simpl; [reflexivity|].
  destruct (val_eq_dec (f x) k); simpl; rewrite IH; reflexivity.
Qed.

Lemma type_of_unknown (r : record) :
  (if val_eq_dec (type_of r) (VStr "Unknown") then true else false) =
  unknown_type r.
Proof.
  unfold unknown_type, type_of, or_else.
  destruct (ToBoolean (get_prop r "crm_cd_desc")); simpl; [reflexivity|].
  destruct (val_eq_dec (VStr "Unknown") (VStr "Unknown")); [|congruence].
  reflexivity.
Qed.

(** X7: the entry of [crimesByType] for the label ["Unknown"] counts
    together the records with no truthy category (missing, [null],
    empty, zero or [false]) and the records whose category is the text
    ["Unknown"] itself. *)
Theorem unknown_bucket (h : Host) (data : list record) :
  exists res,
    chartData h data = Ok res /\
    forall e, In e (crimesByType res) ->
      fullName e = Some (VStr "Unknown") ->
      name e = VStr "Unknown" /\
      value e = Z.of_nat (List.length (filter unknown_type data)).
Proof.
  eexists. split; [apply chartData_eq|]. cbn [crimesByType].
  intros e He Hfull. apply crimesByType_In in He.
  destruct He as [k [Hk [Hname [Hvalue _]]]].
  rewrite Hfull in Hk. injection Hk as <-.
  split; [rewrite Hname; reflexivity|].
  rewrite Hvalue. unfold occurrences. rewrite count_occ_map_filter.
  do 2 f_equal. apply filter_ext. exact type_of_unknown.
Qed.

Lemma unknown_bucket_witness :
  exists res,
    chartData UTCHost.host
      [Samples.bare; [("crm_cd_desc", VStr "Unknown")]; Samples.theft] = Ok res /\
    map value (crimesByType res) = [2; 1].
Proof.
  destruct (unknown_bucket UTCHost.host
              [Samples.bare; [("crm_cd_desc", VStr "Unknown")]; Samples.theft])
    as [res [Hres Hall]].
  exists res. split; [exact Hres|].
  vm_compute in Hres. injection Hres as <-. reflexivity.
Defined.

Lemma ranked_head (mk : val * Z -> Entry val) (labels : list val) (n : nat)
    (k : val) :
  (forall k v, value (mk (k, v)) = v) ->
  In k labels ->
  exists e rest,
    firstn (S n) (sort by_value_desc
                    (map mk (tally_from val_eq_dec [] labels))) = e :: rest /\
    occurrences k labels <= value e.
Proof.
  intros Hv Hk.
  assert (Hin : In (mk (k, occurrences k labels))
                   (sort by_value_desc
                      (map mk (tally_from val_eq_dec [] labels)))).
  { apply ranked_all_In. exists k. auto. }
  pose proof (by_value_desc_sorted (map mk (tally_from val_eq_dec [] labels)))
    as Hs.
  destruct (sort by_value_desc (map mk (tally_from val_eq_dec [] labels)))
    as [|e l]; [contradiction|].
  exists e, (firstn n l). split; [reflexivity|].
  destruct Hin as [->|Hin]; [rewrite Hv; lia|].
  inversion Hs as [|? ? _ Hall]; subst. rewrite Forall_forall in Hall.
  specialize (Hall _ Hin). unfold value_ge in Hall. rewrite Hv in Hall.
  exact Hall.
Qed.

(** X8: when there is at least one record, [crimesByType] and
    [crimesByArea] are not empty, and no label has more records than the
    first entry of its view shows. *)
Theorem first_entry_is_largest (h : Host) (data : list record) :
  data <> [] ->
  exists res e1 rest1 e2 rest2,
    chartData h data = Ok res /\
    crimesByType res = e1 :: rest1 /\
    crimesByArea res = e2 :: rest2 /\
    forall r, In r data ->
      occurrences (type_of r) (map type_of data) <= value e1 /\
      occurrences (area_of r) (map area_of data) <= value e2.
Proof.
  intros Hne. destruct data as [|r0 data]; [congruence|].
  set (d := r0 :: data).
  assert (Hr0 : In r0 d) by (left; reflexivity).
  destruct (ranked_head shown_entry (map type_of d) 14 (type_of r0)
              (fun _ _ => eq_refl) (in_map _ _ _ Hr0)) as [e1 [rest1 [H1 _]]].
  destruct (ranked_head name_value_entry (map area_of d) 14 (area_of r0)
              (fun _ _ => eq_refl) (in_map _ _ _ Hr0)) as [e2 [rest2 [H2 _]]].
  exists {| crimesByType := firstn 15 (all_types h d);
            crimesByArea := firstn 15 (all_areas h d);
            crimesOverTime :=
              sort (by_name h) (map name_value_entry (timeCount (loop h d)));
            totalCount := Z.of_nat (List.length d) |}.
  exists e1, rest1, e2, rest2.
  split; [apply chartData_eq|]. cbn [crimesByType crimesByArea].
  rewrite all_types_ranked, all_areas_ranked.
  split; [exact H1|]. split; [exact H2|].
  intros r Hr. split.
  - destruct (ranked_head shown_entry (map type_of d) 14 (type_of r)
                (fun _ _ => eq_refl) (in_map _ _ _ Hr)) as [e [rest [E Hle]]].
    rewrite H1 in E. injection E as <- _. exact Hle.
  - destruct (ranked_head name_value_entry (map area_of d) 14 (area_of r)
                (fun _ _ => eq_refl) (in_map _ _ _ Hr)) as [e [rest [E Hle]]].
    rewrite H2 in E. injection E as <- _. exact Hle.
Qed.

Lemma first_entry_is_largest_witness :
  exists res e1 rest1,
    chartData UTCHost.host [Samples.burglary; Samples.theft; Samples.theft]
      = Ok res /\
    crimesByType res = e1 :: rest1 /\
    2 <= value e1.
Proof.
  assert (Hne : [Samples.burglary; Samples.theft; Samples.theft] <> [])
    by discriminate.
  destruct (first_entry_is_largest UTCHost.host
              [Samples.burglary; Samples.theft; Samples.theft] Hne)
    as [res [e1 [rest1 [e2 [rest2 [Hres [H1 [H2 Hall]]]]]]]].
  exists res, e1, rest1. split; [exact Hres|]. split; [exact H1|].
  exact (proj1 (Hall Samples.theft (or_intror (or_introl eq_refl)))).
Defined.

(** ** The table *)

Lemma tableData_firstn (data : list record) : tableData data = firstn 1000 data.
Proof. unfold tableData. apply slice_0. Qed.

(** X9: the table has one row for each of the first 1000 records, in
    their order, and none for a later record; every row has one cell for
    each key of the first record, as has the header, and the cell is what
    [record[column] || 'N/A'] gives for the row's own record. *)
Theorem table_shape (data : list record) :
  List.length (table_rows data) = Nat.min 1000 (List.length data) /\
  List.length (table_header data) = List.length (columns data) /\
  (forall row, In row (table_rows data) ->
     List.length row = List.length (table_header data)) /\
  (forall i r, (i < 1000)%nat -> nth_error data i = Some r ->
     nth_error (table_rows data) i = Some (map (cell r) (columns data))) /\
  (forall i, (1000 <= i)%nat -> nth_error (table_rows data) i = None) /\
  (forall r rest, data = r :: rest -> columns data = map fst r).
Proof.
  unfold table_rows, table_header. rewrite tableData_firstn.
  split; [rewrite length_map; apply length_firstn|].
  split; [apply length_map|].
  split.
  { intros row Hrow. apply in_map_iff in Hrow. destruct Hrow as [r [<- _]].
    rewrite !length_map. reflexivity. }
  split.
  { intros i r Hi Hr. rewrite nth_error_map, nth_error_firstn.
    apply Nat.ltb_lt in Hi. rewrite Hi, Hr. reflexivity. }
  split.
  { intros i Hi. rewrite nth_error_map, nth_error_firstn.
    apply Nat.ltb_ge in Hi. rewrite Hi. reflexivity. }
  intros r rest ->. reflexivity.
Qed.

Lemma table_shape_witness :
  nth_error (table_rows [Samples.theft; Samples.bare]) 1 =
  Some [VStr "N/A"; VStr "N/A"; VStr "not a date"].
Proof.
  destruct (table_shape [Samples.theft; Samples.bare])
    as [_ [_ [_ [Hrow _]]]].
  apply (Hrow 1%nat Samples.bare); [|reflexivity].
  apply Nat.ltb_lt. vm_compute. reflexivity.
Defined.



(** ** The header *)

Lemma get_replace_underscores (s : string) (i : nat) :
  String.get i (replace_underscores s) =
  option_map (fun c => if Ascii.eqb c "_" then " "%char else c)
             (String.get i s).
Proof.
  revert i. induction s as [|c s IH]; intros i; simpl; [reflexivity|].
  destruct i as [|i]; [reflexivity|]. apply IH.
Qed.

(** X11: the header cell of a column is the column's name with every
    underscore turned into a space: it has the same length, no
    underscore is left in it, every other character stays in its place,
    a name without underscores is shown as it is, and replacing twice
    changes nothing more. *)
Theorem header_without_underscores (s : string) :
  String.length (replace_underscores s) = String.length s /\
  (forall i, String.get i (replace_underscores s) <> Some "_"%char) /\
  (forall i c, String.get i s = Some c -> c <> "_"%char ->
     String.get i (replace_underscores s) = Some c) /\
  (forall i, String.get i s = Some "_"%char ->
     String.get i (replace_underscores s) = Some " "%char) /\
  ((forall i, String.get i s <> Some "_"%char) -> replace_underscores s = s) /\
  replace_underscores (replace_underscores s) = replace_underscores s.
Proof.
  split; [|split; [|split; [|split; [|split]]]].
  - induction s as [|c s IH]; simpl; [reflexivity|]. rewrite IH. reflexivity.
  - intros i. rewrite get_replace_underscores.
    destruct (String.get i s) as [c|]; simpl; [|discriminate].
    destruct (Ascii.eqb_spec c "_"); [discriminate|congruence].
  - intros i c Hc Hne. rewrite get_replace_underscores, Hc. simpl.
    destruct (Ascii.eqb_spec c "_"); [contradiction|reflexivity].
  - intros i Hc. rewrite get_replace_underscores, Hc. reflexivity.
  - induction s as [|c s IH]; simpl; intros H; [reflexivity|].
    destruct (Ascii.eqb_spec c "_") as [->|Hc].
    + exfalso. apply (H 0%nat). reflexivity.
    + f_equal. apply IH. intros i. apply (H (S i)).
  - induction s as [|c s IH]; simpl; [reflexivity|]. rewrite IH. f_equal.
    destruct (Ascii.eqb_spec c "_"); [reflexivity|].
    destruct (Ascii.eqb_spec c "_"); [contradiction|reflexivity].
Qed.

Lemma header_without_underscores_witness :
  table_header [Samples.theft] = ["crm cd desc"; "area name"; "date rptd"] /\
  replace_underscores "area" = "area".
Proof.
  split; [reflexivity|].
  destruct (header_without_underscores "area") as [_ [_ [_ [_ [Hsame _]]]]].
  apply Hsame. intros [|[|[|[|i]]]]; discriminate.
Defined.

(** ** The pie chart *)

Lemma COLORS_NoDup : NoDup COLORS.
Proof.
  unfold COLORS.
  repeat (constructor;
          [simpl; intros H;
           repeat (destruct H as [H|H]; [discriminate|]); exact H|]).
  constructor.
Qed.

(** X12: every slice of the pie gets a colour of the palette, never
    [undefined]; the first ten slices get ten different colours, and from
    the eleventh on the colours come round again, so that in a pie of
    fifteen areas the last five share their colour with the first five. *)
Theorem pie_fill_cycles (index : nat) :
  (exists c, pie_fill index = Some c /\ In c COLORS) /\
  pie_fill (index + 10) = pie_fill index /\
  (forall j, (index < 10)%nat -> (j < 10)%nat -> pie_fill index = pie_fill j ->
     index = j) /\
  ((index < 5)%nat -> pie_fill (10 + index) = nth_error COLORS index).
Proof.
  unfold pie_fill. change (List.length COLORS) with 10%nat.
  assert (Hlt : forall i, (i mod 10 < 10)%nat)
    by (intros i; apply Nat.mod_upper_bound; discriminate).
  split; [|split; [|split]].
  - destruct (nth_error COLORS (index mod 10)) as [c|] eqn:E.
    + exists c. split; [reflexivity|]. eapply nth_error_In. exact E.
    + apply nth_error_None in E. specialize (Hlt index).
      change (List.length COLORS) with 10%nat in E. lia.
  - f_equal. rewrite <- (Nat.mul_1_l 10) at 1.
    apply Nat.Div0.mod_add.
  - intros j Hi Hj. rewrite !Nat.mod_small by assumption.
    apply (proj1 (NoDup_nth_error COLORS) COLORS_NoDup). exact Hi.
  - intros Hi. f_equal. rewrite Nat.add_comm, <- (Nat.mul_1_l 10) at 1.
    rewrite Nat.Div0.mod_add. apply Nat.mod_small. lia.
Qed.

Lemma pie_fill_cycles_witness :
  pie_fill 12 = Some "#fbbf24" /\ pie_fill 2 = Some "#fbbf24".
Proof.
  destruct (pie_fill_cycles 2) as [_ [Hcycle [_ Hlast]]].
  split; [|reflexivity].
  assert (H2 : (2 < 5)%nat) by lia. exact (Hlast H2).
Defined.

Lemma substring_prefix_append (a b : string) :
  String.substring 0 (String.length a) (String.append a b) = a.
Proof.
  induction a as [|c a IH]; simpl.
  - destruct b; reflexivity.
  - rewrite IH. reflexivity.
Qed.

(** X13: the name in the label of a pie slice is computed without error
    for every entry of [crimesByArea]; a name that is a string is shown
    in at most 15 characters: as it is when it has no more than 15, and
    else by its first 12 characters followed by three dots. *)
Theorem pie_name_width (h : Host) (data : list record) :
  exists res,
    chartData h data = Ok res /\
    forall e, In e (crimesByArea res) ->
      exists v,
        pie_name (name e) = Ok v /\
        ((forall s, name e <> VStr s) -> v = name e) /\
        (forall s, name e = VStr s ->
           exists t,
             v = VStr t /\ (String.length t <= 15)%nat /\
             ((String.length s <= 15)%nat -> t = s) /\
             ((15 < String.length s)%nat ->
              t = String.append (String.substring 0 12 s) "..." /\
              String.substring 0 12 t = String.substring 0 12 s)).
Proof.
  eexists. split; [apply chartData_eq|]. cbn [crimesByArea].
  intros e He. apply crimesByArea_In in He.
  destruct He as [_ [_ [r [_ Hr]]]].
  pose proof (area_of_truthy r) as Ht. rewrite Hr in Ht.
  destruct (name e) as [| | b | x | s]; try discriminate.
  - exists (VBool b). split; [reflexivity|]. split; [reflexivity|].
    intros s [=].
  - exists (VNum x). split; [reflexivity|]. split; [reflexivity|].
    intros s [=].
  - unfold pie_name. cbn [get_length bind gt_num call_substring].
    unfold js_length.
    destruct (Z.ltb_spec 15 (Z.of_nat (String.length s))) as [Hlt|Hle].
    + cbn [bind]. unfold js_substring.
      rewrite (Nat.min_l 0), (Nat.min_l 12) by lia.
      simpl Nat.min. simpl Nat.max. simpl Nat.sub.
      eexists. split; [reflexivity|].
      split; [intros H; exfalso; apply (H s); reflexivity|].
      intros s' [= <-]. eexists. split; [reflexivity|].
      assert (Hlen : String.length (String.substring 0 12 s) = 12%nat)
        by (apply substring_length; lia).
      split; [rewrite append_length, Hlen; simpl; lia|].
      split; [intros; lia|]. intros _. split; [reflexivity|].
      rewrite <- Hlen at 1. apply substring_prefix_append.
    + exists (VStr s). split; [reflexivity|].
      split; [intros H; exfalso; apply (H s); reflexivity|].
      intros s' [= <-]. exists s. split; [reflexivity|].
      split; [lia|]. split; [reflexivity|]. intros; lia.
Qed.

Lemma pie_name_width_witness :
  exists res t,
    chartData UTCHost.host [Samples.long_names] = Ok res /\
    pie_name (VStr Samples.long_label) = Ok (VStr t) /\
    (String.length t <= 15)%nat.
Proof.
  destruct (pie_name_width UTCHost.host [Samples.long_names])
    as [res [Hres Hall]].
  exists res. vm_compute in Hres. injection Hres as <-.
  destruct (Hall _ (or_introl eq_refl)) as [v [Hv [_ Hs]]].
  destruct (Hs _ eq_refl) as [t [-> [Hlen _]]].
  exists t. split; [reflexivity|]. split; [exact Hv|exact Hlen].
Defined.

(** ** The request and the page *)

Section ComponentFacts.
Import Component.
Variable toLocaleString : Z -> string.
Variable h : Host.

Lemma render_eq (s : State) :
  render toLocaleString h s =
  Ok {| spinner :=
          if loading s
          then Some (if String.eqb (progress s) "" then None
                     else Some (progress s))
          else None;
        error_box := if ToBoolean (error s) then Some (error s) else None;
        body :=
          if negb (loading s) && negb (ToBoolean (error s)) then
            Some (if (0 <? List.length (data s))%nat then
                    Analysis
                      (toLocaleString (Z.of_nat (List.length (data s))))
                      (match viewMode s with table => true | graphs => false end)
                      (match viewMode s with
                       | graphs =>
                           Graphs
                             {| crimesByType := firstn 15 (all_types h (data s));
                                crimesByArea := firstn 15 (all_areas h (data s));
                                crimesOverTime :=
                                  sort (by_name h)
                                    (map name_value_entry
                                       (timeCount (loop h (data s))));
                                totalCount :=
                                  Z.of_nat (List.length (data s)) |}
                       | table =>
                           TableView (table_header (data s))
                                     (table_rows (data s))
                       end)
                  else NoData)
          else None |}.
Proof. unfold render. rewrite chartData_eq. reflexivity. Qed.
End ComponentFacts.

(** X14: when the response is not [ok], whatever the state was, the
    request ends with [loading] off, the data untouched and the error
    ["Failed to fetch data: <status> <statusText>"], and the page then
    shows the error block alone: no spinner, no charts, no table. *)
Theorem http_failure_shows_error (toLocaleString : Z -> string) (h : Host)
    (s0 : Component.State) (status : Z) (statusText : string) :
  let s' := Component.run s0
              (Component.fetchCrimeData toLocaleString
                 (Component.response_not_ok status statusText)) in
  let message :=
    VStr (String.append "Failed to fetch data: "
            (String.append (Number_toString status)
               (String.append " " statusText))) in
  Component.data s' = Component.data s0 /\
  Component.viewMode s' = Component.viewMode s0 /\
  Component.loading s' = false /\
  Component.error s' = message /\
  Component.render toLocaleString h s' =
    Ok {| Component.spinner := None;
          Component.error_box := Some message;
          Component.body := None |}.
Proof.
  cbv zeta. repeat split. rewrite render_eq. reflexivity.
Qed.

(** X15: when the response resolves to an array of records, whatever the
    state was, the request ends with [loading] off, no error, the array
    as the data and the view mode as it was; the page then shows the data
    container alone: "No data available" for an empty array, else the
    count of all records with the charts of [chartData] or, in table
    mode, the table. *)
Theorem success_shows_data (toLocaleString : Z -> string) (h : Host)
    (s0 : Component.State) (sampleData : list record) :
  let s' := Component.run s0
              (Component.fetchCrimeData toLocaleString
                 (Component.json_resolves sampleData)) in
  Component.data s' = sampleData /\
  Component.error s' = VNull /\
  Component.loading s' = false /\
  Component.viewMode s' = Component.viewMode s0 /\
  exists c,
    chartData h sampleData = Ok c /\
    Component.render toLocaleString h s' =
      Ok {| Component.spinner := None;
            Component.error_box := None;
            Component.body :=
              Some (match sampleData with
                    | [] => Component.NoData
                    | _ :: _ =>
                        Component.Analysis
                          (toLocaleString (Z.of_nat (List.length sampleData)))
                          (match Component.viewMode s0 with
                           | Component.table => true
                           | Component.graphs => false
                           end)
                          (match Component.viewMode s0 with
                           | Component.graphs => Component.Graphs c
                           | Component.table =>
                               Component.TableView (table_header sampleData)
                                                   (table_rows sampleData)
                           end)
                    end) |}.
Proof.
  cbv zeta. repeat split. eexists. split; [apply chartData_eq|].
  rewrite render_eq. destruct sampleData; reflexivity.
Qed.

(** X16: when [fetch] or [response.json()] rejects, the first render
    after the request shows the error block with the message if the
    message is truthy; if the message is empty or [undefined], it shows
    no error at all but "No data available". *)
Theorem rejection_screen (toLocaleString : Z -> string) (h : Host)
    (message : val) :
  let s1 := Component.run Component.initial
              (Component.fetchCrimeData toLocaleString
                 (Component.fetch_rejects message)) in
  let s2 := Component.run Component.initial
              (Component.fetchCrimeData toLocaleString
                 (Component.json_rejects message)) in
  s1 = s2 /\
  Component.data s1 = [] /\ Component.loading s1 = false /\
  Component.error s1 = message /\
  (ToBoolean message = true ->
   Component.render toLocaleString h s1 =
     Ok {| Component.spinner := None;
           Component.error_box := Some message;
           Component.body := None |}) /\
  (ToBoolean message = false ->
   Component.render toLocaleString h s1 =
     Ok {| Component.spinner := None;
           Component.error_box := None;
           Component.body := Some Component.NoData |}).
Proof.
  cbv zeta. repeat split.
  - intros Ht. rewrite render_eq. simpl. rewrite Ht. reflexivity.
  - intros Hf. rewrite render_eq. simpl. rewrite Hf. reflexivity.
Qed.

Lemma rejection_screen_witness :
  Component.render plain_locale UTCHost.host
    (Component.run Component.initial
       (Component.fetchCrimeData plain_locale
          (Component.fetch_rejects (VStr "")))) =
  Ok {| Component.spinner := None;
        Component.error_box := None;
        Component.body := Some Component.NoData |} /\
  Component.render plain_locale UTCHost.host
    (Component.run Component.initial
       (Component.fetchCrimeData plain_locale
          (Component.fetch_rejects (VStr "Failed to fetch")))) =
  Ok {| Component.spinner := None;
        Component.error_box := Some (VStr "Failed to fetch");
        Component.body := None |}.
Proof.
  pose proof (rejection_screen plain_locale UTCHost.host (VStr "")) as H1.
  pose proof (rejection_screen plain_locale UTCHost.host
                (VStr "Failed to fetch")) as H2.
  cbv zeta in H1, H2.
  destruct H1 as [_ [_ [_ [_ [_ H1]]]]].
  destruct H2 as [_ [_ [_ [_ [H2 _]]]]].
  split; [apply H1; reflexivity|apply H2; reflexivity].
Defined.

(** X17: while the request is in flight, whatever the state was before
    it started, the page shows the loading block alone, with the line
    "Loading data sample...": no error, no charts, no table. *)
Theorem pending_shows_spinner (toLocaleString : Z -> string) (h : Host)
    (s0 : Component.State) :
  let s' := Component.run s0 Component.before_response in
  Component.loading s' = true /\
  Component.error s' = VNull /\
  Component.data s' = Component.data s0 /\
  Component.render toLocaleString h s' =
    Ok {| Component.spinner := Some (Some "Loading data sample...");
          Component.error_box := None;
          Component.body := None |}.
Proof.
  cbv zeta. repeat split. rewrite render_eq. reflexivity.
Qed.

(** X18: every state has a page, and the page is never blank: the
    loading block is there exactly when [loading] is on, the error block
    exactly when [error] is truthy, the data container exactly when
    neither is the case, so never beside one of the other two; and the
    container says "No data available" exactly when there is no
    record. *)
Theorem screen_sections (toLocaleString : Z -> string) (h : Host)
    (s : Component.State) :
  exists scr,
    Component.render toLocaleString h s = Ok scr /\
    (Component.spinner scr <> None <-> Component.loading s = true) /\
    (Component.error_box scr <> None <->
     ToBoolean (Component.error s) = true) /\
    (Component.body scr <> None <->
     Component.loading s = false /\ ToBoolean (Component.error s) = false) /\
    (Component.spinner scr <> None \/ Component.error_box scr <> None \/
     Component.body scr <> None) /\
    (Component.body scr <> None ->
     Component.spinner scr = None /\ Component.error_box scr = None) /\
    (forall b, Component.body scr = Some b ->
       (b = Component.NoData <-> Component.data s = [])).
Proof.
  eexists. split; [apply render_eq|].
  cbn [Component.spinner Component.error_box Component.body].
  destruct (Component.loading s), (ToBoolean (Component.error s)),
    (Component.data s) as [|r d]; simpl;
    intuition (try discriminate; try congruence).
Qed.

(** X19: the timer that clears the progress line two seconds after the
    request changes nothing on the page once [loading] is off, and
    nothing but that line while it is on: the line is read in the loading
    block only. *)
Theorem progress_timeout_unseen (toLocaleString : Z -> string) (h : Host)
    (s : Component.State) :
  let s' := Component.run s Component.progress_timeout in
  Component.data s' = Component.data s /\
  Component.error s' = Component.error s /\
  Component.loading s' = Component.loading s /\
  Component.viewMode s' = Component.viewMode s /\
  (Component.loading s = false ->
   Component.render toLocaleString h s' = Component.render toLocaleString h s) /\
  (Component.loading s = true ->
   exists scr scr',
     Component.render toLocaleString h s = Ok scr /\
     Component.render toLocaleString h s' = Ok scr' /\
     Component.spinner scr' = Some None /\
     Component.error_box scr' = Component.error_box scr /\
     Component.body scr' = Component.body scr).
Proof.
  cbv zeta. repeat split.
  - intros Hl. rewrite !render_eq. simpl. rewrite Hl. reflexivity.
  - intros Hl. eexists. eexists.
    split; [apply render_eq|]. split; [apply render_eq|].
    simpl. rewrite Hl. repeat split.
Qed.

Lemma progress_timeout_unseen_witness :
  Component.render plain_locale UTCHost.host
    (Component.run
       (Component.run Component.initial
          (Component.fetchCrimeData plain_locale
             (Component.json_resolves [Samples.theft])))
       Component.progress_timeout) =
  Component.render plain_locale UTCHost.host
    (Component.run Component.initial
       (Component.fetchCrimeData plain_locale
          (Component.json_resolves [Samples.theft]))).
Proof.
  pose proof (progress_timeout_unseen plain_locale UTCHost.host
                (Component.run Component.initial
                   (Component.fetchCrimeData plain_locale
                      (Component.json_resolves [Samples.theft])))) as H.
  cbv zeta in H. destruct H as [_ [_ [_ [_ [H _]]]]].
  apply H. reflexivity.
Defined.
